(** * Conway's Game of Life on a torus: GameOfLife_sequential.c

    A shallow embedding of the sequential C program and the proofs that
    relate it to its written specification.

    Conventions of the embedding.
    - A C [int] is a [Z] in the range [INT_MIN .. INT_MAX]; [+], [-] and
      [*] on [int] are written [iadd], [isub], [imul] and wrap around
      modulo 2^32 (two's complement).  [%] is C99 remainder, [Z.rem].
    - An [int*] buffer is a [list Z]; a read or a write outside of it is
      undefined behaviour and yields [Undef OutOfBounds].  A null data
      pointer is the buffer of capacity zero.
    - [die] ends the run with [Fatal]; [warn] appends to the log of the
      [world].  The text written to the console by [printf] is not part
      of the model, nor are the wall-clock readings of [gettimeofday].
    - The environment is a [world]: the files that can be opened (their
      contents taken as sequences of [int]), the names that cannot be
      opened for writing, the free room on the device, the size of the
      buffer stdio gives a stream, and the answers [malloc] is going to
      give. *)

From stdpp Require Import gmap strings list fin_maps pretty.
From Stdlib Require Import ZArith Lia.

Local Open Scope Z_scope.

(** ** Machine integers *)

Definition INT_MIN : Z := -2147483648.
Definition INT_MAX : Z := 2147483647.

(** The value of type [int] congruent to [z] modulo 2^32. *)
Definition wrap (z : Z) : Z := (z + 2147483648) mod 4294967296 - 2147483648.

Definition iadd (a b : Z) : Z := wrap (a + b).
Definition isub (a b : Z) : Z := wrap (a - b).
Definition imul (a b : Z) : Z := wrap (a * b).

(** C99 [%]: the remainder has the sign of the dividend. *)
Definition irem (a b : Z) : Z := Z.rem a b.

(** [size_t] is 64 bits wide; [to_size] is the conversion from [int]. *)
Definition SIZE_MOD : Z := 18446744073709551616.
Definition to_size (z : Z) : Z := z mod SIZE_MOD.
Definition size_mul (a b : Z) : Z := (a * b) mod SIZE_MOD.
Definition sizeof_int : Z := 4.

(** ** The environment *)

Record world : Type := World {
  files  : gmap string (list Z);     (* files that exist, with their contents *)
  denied : gset string;              (* names that cannot be opened for writing *)
  space  : nat;                      (* elements the device still has room for *)
  heap   : nat -> option (nat -> Z); (* the k-th malloc: NULL, or the garbage found *)
  brk    : nat;                      (* number of malloc calls so far *)
  log    : list string;              (* warnings issued so far *)
  stdio_buf : nat                    (* elements the buffer of a stream holds *)
}.

Definition set_files (f : gmap string (list Z)) (w : world) : world :=
  World f (denied w) (space w) (heap w) (brk w) (log w) (stdio_buf w).
Definition set_space (n : nat) (w : world) : world :=
  World (files w) (denied w) n (heap w) (brk w) (log w) (stdio_buf w).
Definition set_brk (n : nat) (w : world) : world :=
  World (files w) (denied w) (space w) (heap w) n (log w) (stdio_buf w).
Definition set_log (l : list string) (w : world) : world :=
  World (files w) (denied w) (space w) (heap w) (brk w) l (stdio_buf w).

(** ** Outcomes of a computation *)

Inductive ub : Type :=
| OutOfBounds   (* an array is read or written outside its bounds *)
| NullStream.   (* a stdio function is handed a null FILE pointer *)

Inductive res (A : Type) : Type :=
| Done (a : A)
| Fatal (msg : string) (w : world)   (* die: message, and the world left behind *)
| Undef (u : ub).

Arguments Done {A} a.
Arguments Fatal {A} msg w.
Arguments Undef {A} u.

Definition bind {A B : Type} (m : res A) (k : A -> res B) : res B :=
  match m with
  | Done a => k a
  | Fatal msg w => Fatal msg w
  | Undef u => Undef u
  end.

Notation "x <- m ; k" := (bind m (fun x => k))
  (at level 20, m at level 100, k at level 200, right associativity).
Notation "' pat <- m ; k" := (bind m (fun x => match x with pat => k end))
  (at level 20, pat pattern, m at level 100, k at level 200, right associativity).

(** ** die and warn *)

Definition die {A : Type} (message : string) (w : world) : res A :=
  Fatal message w.

Definition warn (message : string) (w : world) : world :=
  set_log (log w ++ [message]) w.

(** ** Arrays of int *)

(** [X[k]] as an rvalue. *)
Definition rd (X : list Z) (k : Z) : res Z :=
  if k <? 0 then Undef OutOfBounds
  else match X !! Z.to_nat k with
       | Some v => Done v
       | None => Undef OutOfBounds
       end.

(** [X[k] = v]. *)
Definition wr (X : list Z) (k : Z) (v : Z) : res (list Z) :=
  if k <? 0 then Undef OutOfBounds
  else if decide (Z.to_nat k < length X)%nat then Done (<[Z.to_nat k := v]> X)
       else Undef OutOfBounds.

(** ** Counted loops

    [for (i = 0; i < n; i++) body], with the loop state threaded through.
    The counter stays below [n], so [i++] never overflows. *)

Fixpoint for_loop {S : Type} (fuel : nat) (i : Z) (body : Z -> S -> res S) (s : S)
  : res S :=
  match fuel with
  | O => Done s
  | Datatypes.S fuel' => s' <- body i s ; for_loop fuel' (i + 1) body s'
  end.

Definition for_upto {S : Type} (n : Z) (body : Z -> S -> res S) (s : S) : res S :=
  for_loop (Z.to_nat n) 0 body s.

(** ** malloc *)

(** [malloc(bytes)]: the answer of the environment, shaped to the size
    asked for.  The contents of a fresh block are whatever was there. *)
Definition malloc (bytes : Z) (w : world) : option (list Z) * world :=
  let w' := set_brk (Datatypes.S (brk w)) w in
  match heap w (brk w) with
  | None => (None, w')
  | Some g => (Some (g <$> seq 0 (Z.to_nat (bytes / sizeof_int))), w')
  end.

(** ** play: one generation *)

(** The locals of [play] that the first pair of loops updates. *)
Record tally : Type := Tally {
  new : list Z;
  births : Z;
  deaths : Z;
  ok : Z
}.

(** The local [sum] of [play] at cell (i, j): lines 104-118. *)
Definition cell_sum (X : list Z) (N i j : Z) : res Z :=
  let up := irem (iadd (isub i 1) N) N in
  let down := irem (iadd i 1) N in
  let left := irem (iadd (isub j 1) N) N in
  let right := irem (iadd j 1) N in
  a1 <- rd X (iadd (imul N up) left) ;
  a2 <- rd X (iadd (imul N up) j) ;
  a3 <- rd X (iadd (imul N up) right) ;
  a4 <- rd X (iadd (imul N i) left) ;
  a5 <- rd X (iadd (imul N i) right) ;
  a6 <- rd X (iadd (imul N down) left) ;
  a7 <- rd X (iadd (imul N down) j) ;
  a8 <- rd X (iadd (imul N down) right) ;
  Done (iadd (iadd (iadd (iadd (iadd (iadd (iadd a1 a2) a3) a4) a5) a6) a7) a8).

(** The body of the inner loop of the first pass: lines 100-130.  The
    source reads [X[i*N+j]] afresh in each test and in the last branch;
    [X] is not written in this pass, so the one read [x] stands for
    all of them. *)
Definition play_cell (X : list Z) (N i j : Z) (s : tally) : res tally :=
  sum <- cell_sum X N i j ;
  x <- rd X (iadd (imul i N) j) ;
  if (x =? 0) && (sum =? 3) then
    new' <- wr (new s) (iadd (imul i N) j) 1 ;
    Done (Tally new' (iadd (births s) 1) (deaths s) (ok s))
  else if (x =? 1) && ((sum <? 2) || (sum >? 3)) then
    new' <- wr (new s) (iadd (imul i N) j) 0 ;
    Done (Tally new' (births s) (iadd (deaths s) 1) (ok s))
  else
    new' <- wr (new s) (iadd (imul i N) j) x ;
    Done (Tally new' (births s) (deaths s) (iadd (ok s) 1)).

(** The body of the inner loop of the copy: line 138. *)
Definition copy_cell (new : list Z) (N i j : Z) (X : list Z) : res (list Z) :=
  v <- rd new (iadd (imul i N) j) ;
  wr X (iadd (imul i N) j) v.

(** The first pass (lines 98-132), from the fresh buffer [new0]. *)
Definition play_fill (X : list Z) (N : Z) (new0 : list Z) : res tally :=
  for_upto N (fun i => for_upto N (fun j => play_cell X N i j))
           (Tally new0 0 0 0).

(** The copy back (lines 136-140). *)
Definition play_copy (new : list Z) (N : Z) (X : list Z) : res (list Z) :=
  for_upto N (fun i => for_upto N (fun j => copy_cell new N i j)) X.

(** [play] (lines 90-149): allocate, fill, copy back, test the tally.
    [free] leaves nothing to model. *)
Definition play (X : list Z) (N : Z) (w : world) : res (list Z * world) :=
  match malloc (size_mul (to_size (imul N N)) sizeof_int) w with
  | (None, w1) => die "Memory allocation failed" w1
  | (Some new0, w1) =>
      s <- play_fill X N new0 ;
      X' <- play_copy (new s) N X ;
      let w2 :=
        if negb (iadd (iadd (deaths s) (births s)) (ok s) =? imul N N)
        then warn "Testing issue - not all cells were taken into account" w1
        else w1 in
      Done (X', w2)
  end.

(** ** stdio

    A [FILE*] is null ([None]) or a stream on a named file.  Each stream of
    the program is used for one transfer, starting at offset zero. *)

Inductive fmode : Type :=
| ReadUpdate     (* "r+": the file must exist and be writable *)
| WriteUpdate.   (* "w+": the file is created, or truncated to length zero *)

Definition fopen (name : string) (m : fmode) (w : world) : option string * world :=
  if decide (name ∈ denied w) then (None, w)
  else match m with
       | ReadUpdate =>
           match files w !! name with
           | Some _ => (Some name, w)
           | None => (None, w)
           end
       | WriteUpdate => (Some name, set_files (<[name := []]> (files w)) w)
       end.

(** [fread(X, sizeof(int), nmemb, fp)]: the buffer afterwards and the
    number of elements read. *)
Definition fread (X : list Z) (nmemb : Z) (fp : option string) (w : world)
  : res (list Z * Z) :=
  match fp with
  | None => Undef NullStream
  | Some name =>
      let data := default [] (files w !! name) in
      let k := Nat.min (Z.to_nat nmemb) (length data) in
      if decide (k <= length X)%nat
      then Done (take k data ++ drop k X, Z.of_nat k)
      else Undef OutOfBounds
  end.

(** The part of a request of [n] elements that a fresh stream with a
    buffer of [buf] elements hands to the device at once: the whole
    buffer-sized blocks, the rest waiting in the buffer; all of it when
    the stream has no buffer. *)
Definition direct (n buf : nat) : nat :=
  if decide (buf = 0%nat) then n else (buf * (n / buf))%nat.

(** [fwrite(X, sizeof(int), nmemb, fp)] on a fresh stream: the count it
    reports, and the world once the stream has been flushed.  The
    stream is buffered: [fwrite] reports all [nmemb] elements unless
    the part it hands to the device at once does not fit; what waits
    in the buffer reaches the device when the stream is closed or the
    program exits, and the program looks at neither result.  The file
    ends up with the elements the device had room for. *)
Definition fwrite (X : list Z) (nmemb : Z) (fp : option string) (w : world)
  : res (Z * world) :=
  match fp with
  | None => Undef NullStream
  | Some name =>
      let n := Z.to_nat nmemb in
      if decide (n <= length X)%nat
      then
        let reported :=
          if decide (direct n (stdio_buf w) <= space w)%nat then n else space w in
        let kept := Nat.min n (space w) in
        Done (Z.of_nat reported,
              set_space (space w - kept)%nat
                        (set_files (<[name := take kept X]> (files w)) w))
      else Undef OutOfBounds
  end.

(** ** read_from_file (lines 42-57) *)

Definition read_from_file (X : list Z) (filename : string) (N : Z) (w : world)
  : res (list Z * world) :=
  let '(fp, w1) := fopen filename ReadUpdate w in
  '(X', n) <- fread X (to_size (imul N N)) fp w1 ;
  let size := wrap n in
  if decide (fp = None) then die "Couldn't open file to read" w1
  else if size =? 0 then die "Couldn't read from file" w1
  else
    let w2 := if negb (imul N N =? size)
              then warn "Expected to read different number of elements" w1
              else w1 in
    Done (X', w2).

(** ** write_to_file (lines 64-82) *)

(** [sprintf(newfilename, "table%dx%d_new.bin", N, N)]. *)
Definition newfilename (N : Z) : string :=
  "table" +:+ pretty N +:+ "x" +:+ pretty N +:+ "_new.bin".

Definition write_to_file (X : list Z) (filename : string) (N : Z) (w : world)
  : res world :=
  let '(fp, w1) := fopen (newfilename N) WriteUpdate w in
  if decide (fp = None) then die "Couldn't open file to write" w1
  else
    '(n, w2) <- fwrite X (to_size (imul N N)) fp w1 ;
    let size := wrap n in
    if size =? 0 then die "Couldn't write to file" w2
    else
      let w3 := if negb (size =? imul N N)
                then warn "Expected to write different number of elements" w2
                else w2 in
      Done w3.

(** ** printCells (lines 152-160): the sixteen reads behind the printout *)

Definition printCells (table : list Z) (N : Z) : res unit :=
  for_upto 4 (fun i => for_upto 4 (fun j _ =>
    _ <- rd table (iadd (imul N i) j) ; Done tt)) tt.

(** ** main (lines 169-210)

    [run] is the generation loop of lines 194-202; [main] takes the three
    arguments after [atoi].  The result of the [malloc] of line 185 is
    not tested: a null [table] is the buffer of capacity zero. *)

Definition run (table : list Z) (N t : Z) (w : world) : res (list Z * world) :=
  for_upto t (fun gen '(table, w) => play table N w) (table, w).

Definition main (filename : string) (N t : Z) (w : world) : res world :=
  let '(p, w1) := malloc (size_mul (to_size (imul N N)) sizeof_int) w in
  let table := default [] p in
  '(table1, w2) <- read_from_file table filename N w1 ;
  _ <- printCells table1 N ;
  '(table2, w3) <- run table1 N t w2 ;
  _ <- printCells table2 N ;
  write_to_file table2 filename N w3.

(** * The specification's side

    The definitions below follow the written specification, not the C
    text: cells are DEAD or ALIVE, the grid is a row-major sequence
    (index = row * N + col), neighbours are found with modular
    arithmetic, and a step updates every cell at once from the input. *)

Inductive state : Type := DEAD | ALIVE.

(** The stored value of a cell. *)
Definition enc (c : state) : Z :=
  match c with DEAD => 0 | ALIVE => 1 end.

(** The accessor of the data model on stored grids. *)
Definition at_ (X : list Z) (N row col : Z) : Z :=
  default 0 (X !! Z.to_nat (row * N + col)).

(** The sum of the eight toroidal neighbours of (i, j). *)
Definition torus_sum (X : list Z) (N i j : Z) : Z :=
  let up := (i - 1 + N) mod N in
  let down := (i + 1) mod N in
  let left := (j - 1 + N) mod N in
  let right := (j + 1) mod N in
  at_ X N up left + at_ X N up j + at_ X N up right
  + at_ X N i left + at_ X N i right
  + at_ X N down left + at_ X N down j + at_ X N down right.

(** The rule table. *)
Definition rule (c : state) (s : Z) : state :=
  match c with
  | DEAD => if decide (s = 3) then ALIVE else DEAD
  | ALIVE => if decide (s < 2) then DEAD
             else if decide (s > 3) then DEAD
             else ALIVE
  end.

Definition cell (g : list state) (N row col : Z) : state :=
  default DEAD (g !! Z.to_nat (row * N + col)).

Definition live_neighbours (g : list state) (N i j : Z) : Z :=
  torus_sum (enc <$> g) N i j.

(** [step]: every cell of the result is computed from the input grid. *)
Definition step (N : Z) (g : list state) : list state :=
  (fun k : nat =>
     let i := Z.of_nat k / N in
     let j := Z.of_nat k mod N in
     rule (cell g N i j) (live_neighbours g N i j))
  <$> seq 0 (Z.to_nat (N * N)).

(** The t-fold iteration of an operation that may fail. *)
Fixpoint times {S : Type} (n : nat) (f : S -> res S) (s : S) : res S :=
  match n with
  | O => Done s
  | Datatypes.S n' => s' <- f s ; times n' f s'
  end.

(** ** Well-formed inputs *)

(** A grid side the [int] index arithmetic of the program can address. *)
Definition fits (N : Z) : Prop := 1 <= N /\ N * N <= INT_MAX.

(** The data-model invariant on stored grids: every cell is 0 or 1. *)
Definition binary (X : list Z) : Prop :=
  Forall (fun v => v = enc DEAD \/ v = enc ALIVE) X.

(** ** What the code computes, cell by cell *)

(** The decision of lines 121-130 as a function of the cell and its sum. *)
Definition next (x s : Z) : Z :=
  if (x =? 0) && (s =? 3) then 1
  else if (x =? 1) && ((s <? 2) || (s >? 3)) then 0
  else x.

(** The value the first pass stores at flat index [k]. *)
Definition nxt (X : list Z) (N : Z) (k : nat) : Z :=
  let i := Z.of_nat k / N in
  let j := Z.of_nat k mod N in
  next (at_ X N i j) (wrap (torus_sum X N i j)).

Definition next_gen (X : list Z) (N : Z) : list Z :=
  nxt X N <$> seq 0 (Z.to_nat (N * N)).

(** The state of the first pass once the cells before flat index [c]
    have been visited. *)
Definition filled (X : list Z) (N : Z) (c : Z) (s : tally) : Prop :=
  length (new s) = Z.to_nat (N * N) /\
  (forall k : nat, Z.of_nat k < c -> new s !! k = Some (nxt X N k)) /\
  0 <= births s /\ 0 <= deaths s /\ 0 <= ok s /\
  deaths s + births s + ok s = c.

(** The state of the copy once the cells before flat index [c] are done. *)
Definition copied (N : Z) (src : list Z) (c : Z) (Y : list Z) : Prop :=
  length Y = Z.to_nat (N * N) /\
  (forall k : nat, Z.of_nat k < c -> Y !! k = src !! k).

(** ** Sample inputs *)

(** A vertical blinker on a 4x4 board, as stored and as states. *)
Definition blinker : list Z :=
  [0; 1; 0; 0;  0; 1; 0; 0;  0; 1; 0; 0;  0; 0; 0; 0].

Definition blinker_states : list state :=
  [DEAD; ALIVE; DEAD; DEAD;  DEAD; ALIVE; DEAD; DEAD;
   DEAD; ALIVE; DEAD; DEAD;  DEAD; DEAD; DEAD; DEAD].

(** A 3x3 board whose only live cell is the far corner (2, 2). *)
Definition far_corner : list Z :=
  [0; 0; 0;  0; 0; 0;  0; 0; 1].

(** What a fresh block happens to hold. *)
Definition stale (k : nat) : Z := Z.of_nat k + 7.

(** A world where [malloc] always answers and streams have a buffer of
    1024 elements; it holds a full 4x4 board, a
    file that is too short for a 4x4 board, an empty file, and a board
    that carries the name [write_to_file] gives to 4x4 boards. *)
Definition lab : world :=
  World {[ "board.bin" := blinker;
           "short.bin" := [1; 0; 1];
           "empty.bin" := [];
           "table4x4_new.bin" := blinker ]}
        ∅ 64 (fun _ => Some stale) 0 [] 1024.

(** ** Further notions used in the statements *)

(** The world after a complete write of [X] under the name for side [N]. *)
Definition written (X : list Z) (N : Z) (w : world) : world :=
  set_space (space w - Z.to_nat (N * N))%nat
    (set_files (<[newfilename N := X]> (files w)) w).

(** A computation that does not end in [die]. *)
Definition pure_res {A : Type} (r : res A) : Prop :=
  forall msg w, r <> Fatal msg w.

(** The number of live cells of a stored board of zeros and ones; in
    general the sum of the stored values. *)
Definition population (X : list Z) : Z := foldr Z.add 0 X.

(** The first pass once the cells before flat index [c] are done, with
    the tally set against the change in population so far. *)
Definition tallied (X : list Z) (N : Z) (c : Z) (s : tally) : Prop :=
  filled X N c s /\
  births s - deaths s
  = population (take (Z.to_nat c) (next_gen X N)) - population (take (Z.to_nat c) X).

(** The board moved around the torus: the cell at (r, c) of the result
    is the cell at (r + a, c + b) of [X], rows and columns taken
    modulo N. *)
Definition shift (N a b : Z) (X : list Z) : list Z :=
  (fun k : nat =>
     at_ X N ((Z.of_nat k / N + a) mod N) ((Z.of_nat k mod N + b) mod N))
  <$> seq 0 (Z.to_nat (N * N)).

(** ** Further sample worlds *)

(** [lab] with no room left on the device, and with room for five cells. *)
Definition full_disk : world :=
  World (files lab) ∅ 0 (fun _ => Some stale) 0 [] 1024.

Definition tight : world :=
  World (files lab) ∅ 5 (fun _ => Some stale) 0 [] 1024.

(** [lab] where the destination of 4x4 boards cannot be opened. *)
Definition locked : world :=
  World (files lab) {[ "table4x4_new.bin" ]} 64 (fun _ => Some stale) 0 [] 1024.

(** [lab] where [malloc] answers twice and then no more. *)
Definition starved : world :=
  World (files lab) ∅ 64
        (fun k => if (k <? 2)%nat then Some stale else None) 0 [] 1024.

(** * Proofs *)

(** Side conditions on concrete inputs. *)
Ltac fits_now := unfold fits, INT_MAX; lia.
Ltac binary_now :=
  unfold binary; repeat (apply List.Forall_cons; [cbn [enc]; lia|]);
  apply List.Forall_nil.

(** ** Arithmetic that stays in range *)

Lemma wrap_id (z : Z) : INT_MIN <= z <= INT_MAX -> wrap z = z.
Proof.
  unfold INT_MIN, INT_MAX, wrap. intros H.
  rewrite Z.mod_small; lia.
Qed.

Lemma wrap_add_l (a b : Z) : wrap (wrap a + b) = wrap (a + b).
Proof.
  unfold wrap.
  replace ((a + 2147483648) mod 4294967296 - 2147483648 + b + 2147483648)
    with ((a + 2147483648) mod 4294967296 + b) by lia.
  rewrite Zplus_mod_idemp_l. do 2 f_equal. lia.
Qed.

Lemma iadd_chain (a1 a2 a3 a4 a5 a6 a7 a8 : Z) :
  iadd (iadd (iadd (iadd (iadd (iadd (iadd a1 a2) a3) a4) a5) a6) a7) a8
  = wrap (a1 + a2 + a3 + a4 + a5 + a6 + a7 + a8).
Proof.
  assert (Hstep : forall a b, iadd (wrap a) b = wrap (a + b))
    by (intros; apply wrap_add_l).
  replace (iadd a1 a2) with (wrap (a1 + a2)) by reflexivity.
  now rewrite !Hstep.
Qed.

Lemma fits_side (N : Z) : fits N -> 1 <= N <= 46340.
Proof. unfold fits, INT_MAX. intros [H1 H2]. split; [lia | nia]. Qed.

Lemma index_range (N r c : Z) :
  fits N -> 0 <= r < N -> 0 <= c < N -> 0 <= N * r + c < N * N.
Proof. unfold fits. intros [H1 H2] Hr Hc. nia. Qed.

Lemma index_int (N r c : Z) :
  fits N -> 0 <= r < N -> 0 <= c < N -> iadd (imul N r) c = N * r + c.
Proof.
  intros HN Hr Hc. pose proof (index_range N r c HN Hr Hc) as Hk.
  destruct HN as [H1 H2]. unfold iadd, imul.
  rewrite (wrap_id (N * r)) by (unfold INT_MIN, INT_MAX in *; nia).
  apply wrap_id. unfold INT_MIN, INT_MAX in *. lia.
Qed.

Lemma index_int' (N r c : Z) :
  fits N -> 0 <= r < N -> 0 <= c < N -> iadd (imul r N) c = N * r + c.
Proof.
  intros HN Hr Hc. unfold imul. rewrite (Z.mul_comm r N).
  apply index_int; assumption.
Qed.

Lemma before_int (N i : Z) :
  fits N -> 0 <= i < N -> irem (iadd (isub i 1) N) N = (i - 1 + N) mod N.
Proof.
  intros HN Hi. pose proof (fits_side N HN) as HS.
  unfold irem, iadd, isub.
  rewrite (wrap_id (i - 1)) by (unfold INT_MIN, INT_MAX; lia).
  rewrite wrap_id by (unfold INT_MIN, INT_MAX; lia).
  apply Z.rem_mod_nonneg; lia.
Qed.

Lemma after_int (N i : Z) :
  fits N -> 0 <= i < N -> irem (iadd i 1) N = (i + 1) mod N.
Proof.
  intros HN Hi. pose proof (fits_side N HN) as HS.
  unfold irem, iadd.
  rewrite wrap_id by (unfold INT_MIN, INT_MAX; lia).
  apply Z.rem_mod_nonneg; lia.
Qed.

Lemma flat_div (N i j : Z) : 0 <= i < N -> 0 <= j < N -> (N * i + j) / N = i.
Proof. intros Hi Hj. symmetry. apply (Z.div_unique_pos _ N i j); lia. Qed.

Lemma flat_mod (N i j : Z) : 0 <= i < N -> 0 <= j < N -> (N * i + j) mod N = j.
Proof. intros Hi Hj. symmetry. apply (Z.mod_unique_pos _ N i j); lia. Qed.

(** ** Reads and writes inside a buffer *)

Lemma rd_in (X : list Z) (k : Z) :
  (0 <= k < Z.of_nat (length X)) -> rd X k = Done (default 0 (X !! Z.to_nat k)).
Proof.
  intros Hk. unfold rd.
  destruct (Z.ltb_spec k 0) as [?|_]; [lia|].
  destruct (X !! Z.to_nat k) eqn:E; [reflexivity|].
  apply lookup_ge_None in E. lia.
Qed.

Lemma wr_in (X : list Z) (k v : Z) :
  (0 <= k < Z.of_nat (length X)) -> wr X k v = Done (<[Z.to_nat k := v]> X).
Proof.
  intros Hk. unfold wr.
  destruct (Z.ltb_spec k 0) as [?|_]; [lia|].
  destruct (decide (Z.to_nat k < length X)%nat); [reflexivity|lia].
Qed.

(** ** Loop invariants *)

Lemma for_loop_inv {S : Type} (P : Z -> S -> Prop) (body : Z -> S -> res S)
      (n : nat) (i0 : Z) (s : S) :
  P i0 s ->
  (forall k s1, i0 <= k < i0 + Z.of_nat n -> P k s1 ->
                exists s2, body k s1 = Done s2 /\ P (k + 1) s2) ->
  exists s', for_loop n i0 body s = Done s' /\ P (i0 + Z.of_nat n) s'.
Proof.
  revert i0 s. induction n as [|n IH]; intros i0 s H0 Hstep.
  - exists s. rewrite Z.add_0_r. split; [reflexivity | assumption].
  - destruct (Hstep i0 s ltac:(lia) H0) as (s1 & E1 & P1).
    destruct (IH (i0 + 1) s1 P1) as (s' & E' & P').
    { intros k s2 Hk. apply Hstep. lia. }
    exists s'. simpl. rewrite E1. simpl. split; [exact E'|].
    replace (i0 + Z.of_nat (Datatypes.S n)) with (i0 + 1 + Z.of_nat n) by lia.
    exact P'.
Qed.

Lemma for_upto_inv {S : Type} (P : Z -> S -> Prop) (body : Z -> S -> res S)
      (n : Z) (s : S) :
  0 <= n -> P 0 s ->
  (forall k s1, 0 <= k < n -> P k s1 ->
                exists s2, body k s1 = Done s2 /\ P (k + 1) s2) ->
  exists s', for_upto n body s = Done s' /\ P n s'.
Proof.
  intros Hn H0 Hstep.
  destruct (for_loop_inv P body (Z.to_nat n) 0 s H0) as (s' & E & HP).
  { intros k s1 Hk. apply Hstep. lia. }
  exists s'. split; [exact E|].
  replace n with (0 + Z.of_nat (Z.to_nat n)) by lia. exact HP.
Qed.

(** ** The block [play] and [main] ask for *)

Lemma malloc_grid (N : Z) (w : world) (g : nat -> Z) :
  fits N -> heap w (brk w) = Some g ->
  malloc (size_mul (to_size (imul N N)) sizeof_int) w
  = (Some (g <$> seq 0 (Z.to_nat (N * N))), set_brk (Datatypes.S (brk w)) w).
Proof.
  intros HN Hg. pose proof (fits_side N HN) as HS.
  assert (Hmax : N * N <= INT_MAX) by apply HN.
  unfold malloc. rewrite Hg. do 3 f_equal.
  unfold size_mul, to_size, imul, sizeof_int, SIZE_MOD.
  rewrite wrap_id by (unfold INT_MIN, INT_MAX in *; nia).
  unfold INT_MAX in Hmax.
  rewrite (Z.mod_small (N * N)) by nia.
  rewrite Z.mod_small by nia. now rewrite Z.div_mul.
Qed.

(** ** What one cell of the first pass computes *)

Section OneStep.

Variable N : Z.
Variable X : list Z.
Hypothesis HN : fits N.
Hypothesis HX : length X = Z.to_nat (N * N).

Lemma rd_cell (r c : Z) :
  0 <= r < N -> 0 <= c < N -> rd X (iadd (imul N r) c) = Done (at_ X N r c).
Proof.
  intros Hr Hc. rewrite index_int by assumption.
  pose proof (index_range N r c HN Hr Hc).
  rewrite rd_in by lia. unfold at_. now rewrite (Z.mul_comm r N).
Qed.

Lemma cell_sum_wrap (i j : Z) :
  0 <= i < N -> 0 <= j < N ->
  cell_sum X N i j = Done (wrap (torus_sum X N i j)).
Proof.
  intros Hi Hj. pose proof (fits_side N HN) as HS.
  unfold cell_sum, torus_sum.
  rewrite !before_int, !after_int by assumption.
  assert (Hu : 0 <= (i - 1 + N) mod N < N) by (apply Z.mod_pos_bound; lia).
  assert (Hd : 0 <= (i + 1) mod N < N) by (apply Z.mod_pos_bound; lia).
  assert (Hl : 0 <= (j - 1 + N) mod N < N) by (apply Z.mod_pos_bound; lia).
  assert (Hr : 0 <= (j + 1) mod N < N) by (apply Z.mod_pos_bound; lia).
  rewrite !rd_cell by assumption. cbn [bind].
  apply (f_equal Done), iadd_chain.
Qed.

Lemma play_cell_filled (i j : Z) (s : tally) :
  0 <= i < N -> 0 <= j < N -> filled X N (N * i + j) s ->
  exists s', play_cell X N i j s = Done s' /\ filled X N (N * i + (j + 1)) s'.
Proof.
  intros Hi Hj (Hlen & Hnew & Hb & Hd & Ho & Hsum).
  pose proof (index_range N i j HN Hi Hj) as Hk.
  assert (Hmax : N * N <= INT_MAX) by apply HN.
  unfold play_cell. rewrite cell_sum_wrap by assumption. cbn [bind].
  rewrite index_int' by assumption.
  rewrite rd_in by lia. cbn [bind].
  rewrite !wr_in by lia.
  assert (Hval : forall k : nat, Z.of_nat k < N * i + (j + 1) ->
            <[Z.to_nat (N * i + j) :=
                next (at_ X N i j) (wrap (torus_sum X N i j))]> (new s) !! k
            = Some (nxt X N k)).
  { intros k Hlt. destruct (decide (k = Z.to_nat (N * i + j))) as [->|Hne].
    - rewrite list_lookup_insert_eq by lia. unfold nxt.
      rewrite Z2Nat.id by lia.
      now rewrite flat_div, flat_mod by assumption.
    - rewrite list_lookup_insert_ne by congruence. apply Hnew. lia. }
  assert (Hat : default 0 (X !! Z.to_nat (N * i + j)) = at_ X N i j).
  { unfold at_. now rewrite (Z.mul_comm i N). }
  rewrite Hat. unfold next in Hval.
  assert (Hinc : forall c, 0 <= c <= N * i + j -> iadd c 1 = c + 1).
  { intros c Hc. apply wrap_id. unfold INT_MIN, INT_MAX in *. lia. }
  destruct ((at_ X N i j =? 0) && (wrap (torus_sum X N i j) =? 3)).
  - cbn [bind]. eexists. split; [reflexivity|].
    unfold filled; cbn [new births deaths ok].
    rewrite length_insert, Hinc by lia. repeat split; try assumption; lia.
  - destruct ((at_ X N i j =? 1) &&
              ((wrap (torus_sum X N i j) <? 2) || (wrap (torus_sum X N i j) >? 3))).
    + cbn [bind]. eexists. split; [reflexivity|].
      unfold filled; cbn [new births deaths ok].
      rewrite length_insert, Hinc by lia. repeat split; try assumption; lia.
    + cbn [bind]. eexists. split; [reflexivity|].
      unfold filled; cbn [new births deaths ok].
      rewrite length_insert, Hinc by lia. repeat split; try assumption; lia.
Qed.

Lemma play_fill_filled (new0 : list Z) :
  length new0 = Z.to_nat (N * N) ->
  exists s, play_fill X N new0 = Done s /\ filled X N (N * N) s.
Proof.
  intros Hlen. pose proof (fits_side N HN) as HS. unfold play_fill.
  apply (for_upto_inv (fun i s => filled X N (N * i) s)); [lia | |].
  - rewrite Z.mul_0_r. unfold filled; cbn [new births deaths ok].
    repeat split; solve [assumption | lia].
  - intros i s Hi Hs.
    destruct (for_upto_inv (fun j s => filled X N (N * i + j) s)
                (fun j => play_cell X N i j) N s) as (s' & E & Hs').
    + lia.
    + now rewrite Z.add_0_r.
    + intros j s1 Hj Hs1. now apply play_cell_filled.
    + exists s'. split; [exact E|].
      replace (N * (i + 1)) with (N * i + N) by lia. exact Hs'.
Qed.

Lemma copy_cell_copied (src : list Z) (i j : Z) (Y : list Z) :
  length src = Z.to_nat (N * N) ->
  0 <= i < N -> 0 <= j < N -> copied N src (N * i + j) Y ->
  exists Y', copy_cell src N i j Y = Done Y' /\ copied N src (N * i + (j + 1)) Y'.
Proof.
  intros Hsrc Hi Hj (Hlen & Hpre).
  pose proof (index_range N i j HN Hi Hj) as Hk.
  unfold copy_cell. rewrite index_int' by assumption.
  rewrite rd_in by lia. cbn [bind]. rewrite wr_in by lia.
  eexists. split; [reflexivity|]. split.
  - now rewrite length_insert.
  - intros k Hlt. destruct (decide (k = Z.to_nat (N * i + j))) as [->|Hne].
    + rewrite list_lookup_insert_eq by lia.
      destruct (src !! Z.to_nat (N * i + j)) eqn:E; [reflexivity|].
      apply lookup_ge_None in E. lia.
    + rewrite list_lookup_insert_ne by congruence. apply Hpre. lia.
Qed.

Lemma play_copy_all (src : list Z) :
  length src = Z.to_nat (N * N) -> play_copy src N X = Done src.
Proof.
  intros Hsrc. pose proof (fits_side N HN) as HS. unfold play_copy.
  destruct (for_upto_inv (fun i Y => copied N src (N * i) Y)
              (fun i => for_upto N (fun j => copy_cell src N i j)) N X)
    as (Y & E & Hlen & HY).
  - lia.
  - split; [exact HX|]. intros k Hk. lia.
  - intros i Y Hi HY.
    destruct (for_upto_inv (fun j Y => copied N src (N * i + j) Y)
                (fun j => copy_cell src N i j) N Y) as (Y' & E & HY').
    + lia.
    + now rewrite Z.add_0_r.
    + intros j Y1 Hj HY1. now apply copy_cell_copied.
    + exists Y'. split; [exact E|].
      replace (N * (i + 1)) with (N * i + N) by lia. exact HY'.
  - rewrite E. f_equal. apply list_eq. intros k.
    destruct (decide (Z.of_nat k < N * N)) as [Hk|Hk]; [now apply HY|].
    rewrite !(proj2 (lookup_ge_None _ _)) by lia. reflexivity.
Qed.

Lemma filled_all (s : tally) : filled X N (N * N) s -> new s = next_gen X N.
Proof.
  intros (Hlen & Hnew & _). apply list_eq. intros k. unfold next_gen.
  rewrite list_lookup_fmap.
  destruct (decide (Z.of_nat k < N * N)) as [Hk|Hk].
  - rewrite Hnew by assumption. rewrite lookup_seq_lt by lia. reflexivity.
  - rewrite lookup_seq_ge by lia. apply lookup_ge_None. lia.
Qed.

(** One call of [play] on a grid that fits: the grid becomes [next_gen],
    one block is allocated, and nothing is logged. *)
Lemma play_next_gen (w : world) (g : nat -> Z) :
  heap w (brk w) = Some g ->
  play X N w = Done (next_gen X N, set_brk (Datatypes.S (brk w)) w).
Proof.
  intros Hg. assert (Hmax : N * N <= INT_MAX) by apply HN.
  pose proof (fits_side N HN) as HS.
  unfold play. rewrite (malloc_grid N w g HN Hg).
  destruct (play_fill_filled (g <$> seq 0 (Z.to_nat (N * N)))) as (s & E & Hs).
  { now rewrite length_fmap, length_seq. }
  rewrite E. cbn [bind].
  pose proof (filled_all s Hs) as Hnew.
  destruct Hs as (Hlen & _ & Hb & Hd & Ho & Hsum).
  rewrite play_copy_all by assumption. cbn [bind].
  unfold iadd, imul. rewrite wrap_add_l, Hsum.
  rewrite Z.eqb_refl. cbn [negb]. now rewrite Hnew.
Qed.

End OneStep.

(** From side 4 on, the sixteen reads of [printCells] are inside the board. *)
Lemma printCells_ok (table : list Z) (N : Z) :
  fits N -> 4 <= N -> length table = Z.to_nat (N * N) ->
  printCells table N = Done tt.
Proof.
  intros HN H4 Hlen. unfold printCells, for_upto.
  change (Z.to_nat 4) with 4%nat. cbn [for_loop].
  rewrite !(rd_cell N table HN Hlen) by lia. reflexivity.
Qed.

(** ** Grids of zeros and ones *)

Lemma at_binary (X : list Z) (N r c : Z) :
  binary X -> at_ X N r c = 0 \/ at_ X N r c = 1.
Proof.
  intros HB. unfold at_.
  destruct (X !! Z.to_nat (r * N + c)) as [v|] eqn:E; [|now left].
  exact (proj1 (Forall_lookup _ X) HB _ _ E).
Qed.

Lemma torus_sum_binary (X : list Z) (N i j : Z) :
  binary X -> 0 <= torus_sum X N i j <= 8.
Proof.
  intros HB. unfold torus_sum.
  pose proof (fun r c => at_binary X N r c HB) as H.
  pose proof (H ((i - 1 + N) mod N) ((j - 1 + N) mod N)).
  pose proof (H ((i - 1 + N) mod N) j).
  pose proof (H ((i - 1 + N) mod N) ((j + 1) mod N)).
  pose proof (H i ((j - 1 + N) mod N)).
  pose proof (H i ((j + 1) mod N)).
  pose proof (H ((i + 1) mod N) ((j - 1 + N) mod N)).
  pose proof (H ((i + 1) mod N) j).
  pose proof (H ((i + 1) mod N) ((j + 1) mod N)).
  lia.
Qed.

Lemma torus_sum_exact (X : list Z) (N i j : Z) :
  binary X -> wrap (torus_sum X N i j) = torus_sum X N i j.
Proof.
  intros HB. pose proof (torus_sum_binary X N i j HB).
  apply wrap_id. unfold INT_MIN, INT_MAX. lia.
Qed.

Lemma next_binary (x s : Z) : x = 0 \/ x = 1 -> next x s = 0 \/ next x s = 1.
Proof.
  intros Hx. unfold next.
  destruct ((x =? 0) && (s =? 3)); [now right|].
  destruct ((x =? 1) && ((s <? 2) || (s >? 3))); [now left | exact Hx].
Qed.

Lemma next_gen_binary (X : list Z) (N : Z) : binary X -> binary (next_gen X N).
Proof.
  intros HB. unfold binary, next_gen. apply Forall_fmap, Forall_forall.
  intros k _. apply next_binary, at_binary, HB.
Qed.

Lemma next_gen_length (X : list Z) (N : Z) :
  length (next_gen X N) = Z.to_nat (N * N).
Proof. unfold next_gen. now rewrite length_fmap, length_seq. Qed.

Lemma next_gen_lookup (X : list Z) (N i j : Z) :
  fits N -> 0 <= i < N -> 0 <= j < N ->
  next_gen X N !! Z.to_nat (N * i + j)
  = Some (next (at_ X N i j) (wrap (torus_sum X N i j))).
Proof.
  intros HN Hi Hj. pose proof (index_range N i j HN Hi Hj) as Hk.
  pose proof (fits_side N HN) as HS.
  unfold next_gen. rewrite list_lookup_fmap, lookup_seq_lt by lia.
  cbn. unfold nxt. rewrite Z2Nat.id by lia.
  now rewrite flat_div, flat_mod by assumption.
Qed.

(** ** Stored grids and grids of states *)

Lemma enc_binary (g : list state) : binary (enc <$> g).
Proof.
  unfold binary. apply Forall_fmap, Forall_forall.
  intros [] _; [now left | now right].
Qed.

Lemma at_enc (g : list state) (N r c : Z) :
  at_ (enc <$> g) N r c = enc (cell g N r c).
Proof.
  unfold at_, cell. rewrite list_lookup_fmap.
  now destruct (g !! Z.to_nat (r * N + c)).
Qed.

Lemma next_enc (c : state) (s : Z) : next (enc c) s = enc (rule c s).
Proof.
  unfold next, rule. destruct c; cbn [enc].
  - destruct (decide (s = 3)) as [->|Hs]; [reflexivity|].
    destruct (Z.eqb_spec s 3); [contradiction | reflexivity].
  - change (1 =? 0) with false. change (1 =? 1) with true. cbn [andb].
    destruct (decide (s < 2)).
    + destruct (Z.ltb_spec s 2); [reflexivity | lia].
    + destruct (Z.ltb_spec s 2); [lia|]. cbn [orb].
      destruct (decide (s > 3)).
      * destruct (Z.gtb_spec s 3); [reflexivity | lia].
      * destruct (Z.gtb_spec s 3); [lia | reflexivity].
Qed.

Lemma next_gen_enc (g : list state) (N : Z) :
  next_gen (enc <$> g) N = enc <$> step N g.
Proof.
  unfold next_gen, step. rewrite <- list_fmap_compose.
  apply list_fmap_ext. intros _ k _. cbn. unfold nxt, live_neighbours.
  now rewrite torus_sum_exact, at_enc, next_enc by apply enc_binary.
Qed.

Lemma step_length (N : Z) (g : list state) :
  length (step N g) = Z.to_nat (N * N).
Proof. unfold step. now rewrite length_fmap, length_seq. Qed.

(** [play] on the stored form of a grid of states. *)
Lemma play_on_states (N : Z) (g : list state) (w : world) (garbage : nat -> Z) :
  fits N -> length g = Z.to_nat (N * N) ->
  heap w (brk w) = Some garbage ->
  play (enc <$> g) N w = Done (enc <$> step N g, set_brk (Datatypes.S (brk w)) w).
Proof.
  intros HN Hlen Hg.
  rewrite (play_next_gen N (enc <$> g) HN) with (g := garbage).
  - now rewrite next_gen_enc.
  - now rewrite length_fmap.
  - exact Hg.
Qed.

(** * The engine: one step *)

(** C1. On a grid of zeros and ones, one call of [play] gives every cell
    (i, j) the state the rule table prescribes for its old state [x] and
    the live-neighbour sum [s] the code computed, which is the number of
    live cells among its eight neighbours on the torus: a dead cell with
    s = 3 is born, a dead cell with s <> 3 stays dead, a live cell with
    s < 2 or s > 3 dies, a live cell with s = 2 or s = 3 stays alive;
    [x] is dead or alive and [s] lies in 0..8, so these four rows are
    all the transitions there are. *)
Theorem play_rule_table (X : list Z) (N i j : Z) (w : world) (garbage : nat -> Z) :
  fits N -> length X = Z.to_nat (N * N) -> binary X ->
  heap w (brk w) = Some garbage ->
  0 <= i < N -> 0 <= j < N ->
  exists X' w' x s x',
    play X N w = Done (X', w') /\
    rd X (i * N + j) = Done x /\
    cell_sum X N i j = Done s /\
    rd X' (i * N + j) = Done x' /\
    x = at_ X N i j /\ s = torus_sum X N i j /\ x' = at_ X' N i j /\
    (x = enc DEAD \/ x = enc ALIVE) /\ 0 <= s <= 8 /\
    (x = enc DEAD -> s = 3 -> x' = enc ALIVE) /\
    (x = enc DEAD -> s <> 3 -> x' = enc DEAD) /\
    (x = enc ALIVE -> s < 2 \/ s > 3 -> x' = enc DEAD) /\
    (x = enc ALIVE -> s = 2 \/ s = 3 -> x' = enc ALIVE).
Proof.
  intros HN HX HB Hg Hi Hj.
  pose proof (index_range N i j HN Hi Hj) as Hk.
  exists (next_gen X N), (set_brk (Datatypes.S (brk w)) w),
    (at_ X N i j), (torus_sum X N i j),
    (next (at_ X N i j) (torus_sum X N i j)).
  split; [exact (play_next_gen N X HN HX w garbage Hg)|].
  split.
  { rewrite rd_in by lia. reflexivity. }
  split.
  { rewrite (cell_sum_wrap N X HN HX) by assumption.
    now rewrite torus_sum_exact. }
  split.
  { rewrite rd_in by (rewrite next_gen_length; lia).
    rewrite (Z.mul_comm i N), next_gen_lookup by assumption.
    now rewrite torus_sum_exact. }
  split; [reflexivity|]. split; [reflexivity|].
  split.
  { unfold at_ at 2. rewrite (Z.mul_comm i N), next_gen_lookup by assumption.
    now rewrite torus_sum_exact. }
  split; [exact (at_binary X N i j HB)|].
  split; [exact (torus_sum_binary X N i j HB)|].
  unfold next, enc. repeat split.
  - intros -> ->. reflexivity.
  - intros -> Hs. destruct (Z.eqb_spec (torus_sum X N i j) 3); [contradiction|].
    reflexivity.
  - intros -> Hs. change (1 =? 0) with false. change (1 =? 1) with true.
    cbn [andb].
    destruct (Z.ltb_spec (torus_sum X N i j) 2); [reflexivity|].
    destruct (Z.gtb_spec (torus_sum X N i j) 3); [reflexivity | lia].
  - intros -> Hs. change (1 =? 0) with false. change (1 =? 1) with true.
    cbn [andb].
    destruct (Z.ltb_spec (torus_sum X N i j) 2); [lia|].
    destruct (Z.gtb_spec (torus_sum X N i j) 3); [lia | reflexivity].
Qed.

(** C2. On a grid that fits, the sum [play] computes at (i, j) is the sum
    of the eight cells at rows (i-1+N) mod N, i, (i+1) mod N and columns
    (j-1+N) mod N, j, (j+1) mod N, the cell (i, j) itself left out: as an
    [int] in general, and exactly on a grid of zeros and ones.  At the
    corner (0, 0) the first of the eight is the cell (N-1, N-1), so when
    that cell is alive the sum at the corner is at least one. *)
Theorem cell_sum_toroidal (X : list Z) (N i j : Z) :
  fits N -> length X = Z.to_nat (N * N) ->
  0 <= i < N -> 0 <= j < N ->
  cell_sum X N i j = Done (wrap (torus_sum X N i j)) /\
  (binary X -> cell_sum X N i j = Done (torus_sum X N i j)) /\
  ((0 - 1 + N) mod N = N - 1 /\
   (binary X -> at_ X N (N - 1) (N - 1) = enc ALIVE ->
    exists s, cell_sum X N 0 0 = Done s /\ 1 <= s)).
Proof.
  intros HN HX Hi Hj. pose proof (fits_side N HN) as HS.
  assert (Hcorner : (0 - 1 + N) mod N = N - 1).
  { replace (0 - 1 + N) with (N - 1) by lia. apply Z.mod_small. lia. }
  split; [now apply cell_sum_wrap|].
  split.
  { intros HB. rewrite (cell_sum_wrap N X HN HX) by assumption.
    now rewrite torus_sum_exact. }
  split; [exact Hcorner|].
  intros HB Hlive. exists (torus_sum X N 0 0). split.
  { rewrite (cell_sum_wrap N X HN HX) by lia. now rewrite torus_sum_exact. }
  unfold torus_sum. rewrite Hcorner, Hlive. cbn [enc].
  pose proof (fun r c => at_binary X N r c HB) as H.
  pose proof (H (N - 1) 0).
  pose proof (H (N - 1) ((0 + 1) mod N)).
  pose proof (H 0 (N - 1)).
  pose proof (H 0 ((0 + 1) mod N)).
  pose proof (H ((0 + 1) mod N) (N - 1)).
  pose proof (H ((0 + 1) mod N) 0).
  pose proof (H ((0 + 1) mod N) ((0 + 1) mod N)).
  lia.
Qed.

(** C3. [play] fills a fresh buffer and copies it back; the grid it
    leaves is the simultaneous update [step] of the grid it was given,
    whatever the fresh buffer held: every cell of the result is a
    function of the input grid alone. *)
Theorem play_refines_step (g : list state) (N : Z) (w : world) (garbage : nat -> Z) :
  fits N -> length g = Z.to_nat (N * N) ->
  heap w (brk w) = Some garbage ->
  play (enc <$> g) N w = Done (enc <$> step N g, set_brk (Datatypes.S (brk w)) w).
Proof.
  intros HN Hlen Hg. now apply play_on_states with (garbage := garbage).
Qed.

(** C4. In one call of [play] the first pass ends with
    births + deaths + ok = N * N, whatever the cells hold, and the call
    leaves the log as it found it: the warning of line 144 is not
    issued. *)
Theorem play_counts_every_cell (X : list Z) (N : Z) (w : world) (garbage : nat -> Z) :
  fits N -> length X = Z.to_nat (N * N) ->
  heap w (brk w) = Some garbage ->
  (exists s, play_fill X N (garbage <$> seq 0 (Z.to_nat (N * N))) = Done s /\
             births s + deaths s + ok s = N * N) /\
  (exists X' w', play X N w = Done (X', w') /\ log w' = log w).
Proof.
  intros HN HX Hg. split.
  - destruct (play_fill_filled N X HN HX (garbage <$> seq 0 (Z.to_nat (N * N))))
      as (s & E & _ & _ & _ & _ & _ & Hsum).
    { now rewrite length_fmap, length_seq. }
    exists s. split; [exact E | lia].
  - exists (next_gen X N), (set_brk (Datatypes.S (brk w)) w).
    split; [exact (play_next_gen N X HN HX w garbage Hg) | reflexivity].
Qed.

(** C6. [play] keeps the invariant of the data model: from a grid of
    zeros and ones it produces a grid of zeros and ones, of the same
    length. *)
Theorem play_preserves_binary (X : list Z) (N : Z) (w : world) (garbage : nat -> Z) :
  fits N -> length X = Z.to_nat (N * N) -> binary X ->
  heap w (brk w) = Some garbage ->
  exists X' w', play X N w = Done (X', w') /\ binary X' /\ length X' = length X.
Proof.
  intros HN HX HB Hg.
  exists (next_gen X N), (set_brk (Datatypes.S (brk w)) w).
  split; [exact (play_next_gen N X HN HX w garbage Hg)|].
  split; [now apply next_gen_binary|].
  now rewrite next_gen_length.
Qed.

(** C10. With N = 1 the four neighbour indices are all 0, every one of
    the eight reads is a read of the single cell, and the sum is eight
    times its value; one call of [play] turns both 1x1 grids into the
    dead grid. *)
Theorem play_single_cell (x : Z) (w : world) (garbage : nat -> Z) :
  irem (iadd (isub 0 1) 1) 1 = 0 /\ irem (iadd 0 1) 1 = 0 /\
  cell_sum [x] 1 0 0 = Done (wrap (8 * x)) /\
  (x = enc DEAD \/ x = enc ALIVE ->
   cell_sum [x] 1 0 0 = Done (8 * x) /\
   (heap w (brk w) = Some garbage ->
    play [x] 1 w = Done ([enc DEAD], set_brk (Datatypes.S (brk w)) w))).
Proof.
  assert (H1 : fits 1) by (unfold fits, INT_MAX; lia).
  assert (Hsum : torus_sum [x] 1 0 0 = 8 * x).
  { unfold torus_sum, at_.
    change ((0 - 1 + 1) mod 1) with 0. change ((0 + 1) mod 1) with 0.
    change (Z.to_nat (0 * 1 + 0)) with 0%nat.
    change ([x] !! 0%nat) with (Some x). cbn [default from_option id]. lia. }
  split; [reflexivity|]. split; [reflexivity|]. split.
  { rewrite (cell_sum_wrap 1 [x] H1 eq_refl) by lia. now rewrite Hsum. }
  intros Hx. split.
  { rewrite (cell_sum_wrap 1 [x] H1 eq_refl) by lia. rewrite Hsum.
    f_equal. apply wrap_id. unfold INT_MIN, INT_MAX, enc in *. lia. }
  intros Hg. rewrite (play_next_gen 1 [x] H1 eq_refl w garbage Hg).
  do 2 f_equal. unfold next_gen.
  change (Z.to_nat (1 * 1)) with 1%nat. change (seq 0 1) with [0%nat].
  change (nxt [x] 1 <$> [0%nat]) with [nxt [x] 1 0]. f_equal.
  unfold nxt. change (Z.of_nat 0 / 1) with 0. change (Z.of_nat 0 mod 1) with 0.
  cbv zeta. rewrite Hsum. change (at_ [x] 1 0 0) with x.
  destruct Hx as [->| ->]; reflexivity.
Qed.

(** * The driver loop *)

Lemma for_loop_times {S : Type} (f : S -> res S) (n : nat) (i : Z) (s : S) :
  for_loop n i (fun _ => f) s = times n f s.
Proof.
  revert i s. induction n as [|n IH]; intros i s; [reflexivity|].
  cbn [for_loop times]. destruct (f s); cbn [bind]; [apply IH | reflexivity..].
Qed.

Lemma set_brk_same (w : world) : set_brk (brk w + 0) w = w.
Proof. destruct w. unfold set_brk. cbn. now rewrite Nat.add_0_r. Qed.

Lemma set_brk_next (w : world) (n : nat) :
  set_brk (brk (set_brk (Datatypes.S (brk w)) w) + n) (set_brk (Datatypes.S (brk w)) w)
  = set_brk (brk w + Datatypes.S n) w.
Proof. destruct w. unfold set_brk. cbn. f_equal. lia. Qed.

Lemma times_play_step (N : Z) (n : nat) (g : list state) (w : world) :
  fits N -> length g = Z.to_nat (N * N) ->
  (forall k, heap w k <> None) ->
  times n (fun '(X, w) => play X N w) (enc <$> g, w)
  = Done (enc <$> Nat.iter n (step N) g, set_brk (brk w + n) w).
Proof.
  intros HN. revert g w. induction n as [|n IH]; intros g w Hlen Hheap.
  - cbn. now rewrite set_brk_same.
  - cbn [times]. destruct (heap w (brk w)) as [garbage|] eqn:Hg;
      [|now apply Hheap in Hg].
    rewrite (play_on_states N g w garbage HN Hlen Hg). cbn [bind].
    rewrite IH.
    + rewrite set_brk_next. now rewrite Nat.iter_succ_r.
    + apply step_length.
    + exact Hheap.
Qed.

(** C5. The generation loop of [main] runs [play] t times, each call
    on the grid the call before it left: [run] is the t-fold iteration
    of [play]; with t = 0 it returns the grid it was given; and on a
    grid of states, as long as [malloc] keeps answering, it returns the
    t-fold iterate of [step]. *)
Theorem run_iterates_play (X : list Z) (N t : Z) (w : world) :
  0 <= t ->
  run X N t w = times (Z.to_nat t) (fun '(X, w) => play X N w) (X, w) /\
  run X N 0 w = Done (X, w) /\
  (forall g : list state,
      X = enc <$> g -> fits N -> length g = Z.to_nat (N * N) ->
      (forall k, heap w k <> None) ->
      run X N t w = Done (enc <$> Nat.iter (Z.to_nat t) (step N) g,
                          set_brk (brk w + Z.to_nat t) w)).
Proof.
  intros Ht.
  assert (Hrun : run X N t w
                 = times (Z.to_nat t) (fun '(X, w) => play X N w) (X, w)).
  { unfold run, for_upto. apply for_loop_times. }
  split; [exact Hrun|]. split; [reflexivity|].
  intros g -> HN Hlen Hheap. rewrite Hrun. now apply times_play_step.
Qed.

(** * Reading and writing the board *)

Lemma fopen_read_ok (filename : string) (data : list Z) (w : world) :
  filename ∉ denied w -> files w !! filename = Some data ->
  fopen filename ReadUpdate w = (Some filename, w).
Proof.
  intros Hd Hf. unfold fopen.
  destruct (decide (filename ∈ denied w)); [contradiction|]. now rewrite Hf.
Qed.

Lemma fopen_read_fail (filename : string) (w : world) :
  filename ∈ denied w \/ files w !! filename = None ->
  fopen filename ReadUpdate w = (None, w).
Proof.
  intros H. unfold fopen.
  destruct (decide (filename ∈ denied w)); [reflexivity|].
  destruct H as [H|H]; [contradiction|]. now rewrite H.
Qed.

(** The path of [read_from_file] on a source that does not open. *)
Lemma read_from_file_null (X : list Z) (filename : string) (N : Z) (w : world) :
  filename ∈ denied w \/ files w !! filename = None ->
  read_from_file X filename N w = Undef NullStream.
Proof.
  intros H. unfold read_from_file. now rewrite (fopen_read_fail filename w H).
Qed.

(** What [read_from_file] does with a file it could open. *)
Lemma read_from_file_opened (X data : list Z) (filename : string) (N : Z) (w : world) :
  fits N -> length X = Z.to_nat (N * N) ->
  filename ∉ denied w -> files w !! filename = Some data ->
  read_from_file X filename N w =
    let k := Nat.min (Z.to_nat (N * N)) (length data) in
    if decide (k = 0%nat) then Fatal "Couldn't read from file" w
    else Done (take k data ++ drop k X,
               if decide (k = Z.to_nat (N * N)) then w
               else warn "Expected to read different number of elements" w).
Proof.
  intros HN HX Hd Hf. assert (Hmax : N * N <= INT_MAX) by apply HN.
  pose proof (fits_side N HN) as HS. unfold INT_MAX in Hmax.
  unfold read_from_file. rewrite (fopen_read_ok filename data w Hd Hf).
  unfold fread. rewrite Hf. cbn [default from_option id].
  assert (Hcount : to_size (imul N N) = N * N).
  { unfold to_size, imul, SIZE_MOD.
    rewrite wrap_id by (unfold INT_MIN, INT_MAX; nia).
    apply Z.mod_small. nia. }
  rewrite Hcount. cbv zeta.
  set (k := Nat.min (Z.to_nat (N * N)) (length data)).
  assert (Hk : (k <= Z.to_nat (N * N))%nat) by apply Nat.le_min_l.
  destruct (decide (k <= length X)%nat); [|lia]. cbn [bind].
  destruct (decide (Some filename = None)); [discriminate|].
  rewrite wrap_id by (unfold INT_MIN, INT_MAX; lia).
  unfold die. destruct (decide (k = 0%nat)) as [->|Hk0]; [reflexivity|].
  destruct (Z.eqb_spec (Z.of_nat k) 0); [lia|].
  unfold imul. rewrite wrap_id by (unfold INT_MIN, INT_MAX; nia).
  destruct (decide (k = Z.to_nat (N * N))) as [Hfull|Hshort].
  - destruct (Z.eqb_spec (N * N) (Z.of_nat k)); [reflexivity | lia].
  - destruct (Z.eqb_spec (N * N) (Z.of_nat k)); [lia | reflexivity].
Qed.

(** C9. A file that opens and holds some elements, but fewer than
    N * N: [read_from_file] returns, the elements read at the front of
    the buffer and the rest of the buffer as it was, and the count
    warning added at the end of the log, nothing else in the world
    changed; [main] goes on to [printCells] and [run] on that
    buffer, and from side 4 on [printCells] returns.  A read
    is fatal exactly when the file opened and no element was read. *)
Theorem read_from_file_short (data : list Z) (filename : string) (N t : Z)
        (w : world) (garbage : nat -> Z) :
  fits N -> heap w (brk w) = Some garbage ->
  filename ∉ denied w -> files w !! filename = Some data ->
  (0 < length data < Z.to_nat (N * N))%nat ->
  let table := garbage <$> seq 0 (Z.to_nat (N * N)) in
  let w1 := set_brk (Datatypes.S (brk w)) w in
  let buffer := data ++ drop (length data) table in
  let w2 := warn "Expected to read different number of elements" w1 in
  read_from_file table filename N w1 = Done (buffer, w2) /\
  log w2 = log w ++ ["Expected to read different number of elements"] /\
  files w2 = files w /\ denied w2 = denied w /\ space w2 = space w /\
  brk w2 = Datatypes.S (brk w) /\
  main filename N t w =
    (_ <- printCells buffer N ;
     '(table2, w3) <- run buffer N t w2 ;
     _ <- printCells table2 N ;
     write_to_file table2 filename N w3) /\
  (4 <= N ->
   main filename N t w =
     ('(table2, w3) <- run buffer N t w2 ;
      _ <- printCells table2 N ;
      write_to_file table2 filename N w3)) /\
  (forall (X : list Z) (w' : world),
      length X = Z.to_nat (N * N) ->
      (exists msg w'', read_from_file X filename N w' = Fatal msg w'')
      <-> (filename ∉ denied w') /\ files w' !! filename = Some []).
Proof.
  intros HN Hg Hd Hf Hlen table w1 buffer w2.
  pose proof (fits_side N HN) as HS.
  assert (Hread : read_from_file table filename N w1 = Done (buffer, w2)).
  { rewrite (read_from_file_opened table data filename N w1 HN); try assumption.
    - cbv zeta. rewrite Nat.min_r by lia.
      destruct (decide (length data = 0%nat)); [lia|].
      destruct (decide (length data = Z.to_nat (N * N))); [lia|].
      subst buffer. now rewrite firstn_all.
    - subst table. now rewrite length_fmap, length_seq. }
  assert (Hmain : main filename N t w =
            (_ <- printCells buffer N ;
             '(table2, w3) <- run buffer N t w2 ;
             _ <- printCells table2 N ;
             write_to_file table2 filename N w3)).
  { unfold main. rewrite (malloc_grid N w garbage HN Hg).
    cbv beta iota zeta. cbn [default from_option id]. fold table. fold w1.
    rewrite Hread. reflexivity. }
  split; [exact Hread|].
  split; [reflexivity|]. split; [reflexivity|]. split; [reflexivity|].
  split; [reflexivity|]. split; [reflexivity|].
  split; [exact Hmain|]. split.
  - intros H4. rewrite Hmain. rewrite printCells_ok; [reflexivity | assumption..|].
    subst buffer table. rewrite length_app, length_drop, length_fmap, length_seq.
    lia.
  - intros X w' HX.
    destruct (decide (filename ∈ denied w')) as [Hin|Hd'].
    { rewrite read_from_file_null by now left.
      split; [intros (msg & w'' & H); discriminate | intros [Hd' _]; contradiction]. }
    destruct (files w' !! filename) as [contents|] eqn:Hf'.
    2:{ rewrite read_from_file_null by now right.
        split; [intros (msg & w'' & H) | intros [_ H]]; discriminate. }
    rewrite (read_from_file_opened X contents filename N w' HN HX Hd' Hf').
    cbv zeta.
    destruct (decide (Nat.min (Z.to_nat (N * N)) (length contents) = 0%nat))
      as [Hz|Hz].
    + split; [|intros _; eauto].
      intros _. split; [exact Hd'|].
      destruct contents; [reflexivity|]. cbn [length] in Hz. lia.
    + split; [intros (msg & w'' & H); discriminate|].
      intros [_ H]. injection H as ->. cbn [length] in Hz. lia.
Qed.

(** C8. When the source cannot be opened, [read_from_file] hands the null
    stream to [fread] before it looks at it: the outcome is the
    undefined behaviour of that call, not the fatal error of line 47. *)
Theorem read_from_file_unopenable (X : list Z) (filename : string) (N : Z) (w : world) :
  filename ∈ denied w \/ files w !! filename = None ->
  read_from_file X filename N w = Undef NullStream.
Proof.
  exact (read_from_file_null X filename N w).
Qed.

(** X6. [write_to_file], in contrast, looks at the stream before it
    writes: when the destination cannot be opened it dies with the error
    of line 74, and the world is as it was. *)
Lemma write_to_file_unopenable (X : list Z) (filename : string) (N : Z) (w : world) :
  newfilename N ∈ denied w ->
  write_to_file X filename N w = Fatal "Couldn't open file to write" w.
Proof.
  intros H. unfold write_to_file, fopen.
  destruct (decide (newfilename N ∈ denied w)); [|contradiction].
  destruct (decide (None = None)); [reflexivity | congruence].
Qed.

(** X5. [write_to_file] touches no file but the one named after N, whether
    it returns or dies. *)
Lemma write_to_file_elsewhere (X : list Z) (filename other : string) (N : Z) (w : world) :
  other <> newfilename N ->
  match write_to_file X filename N w with
  | Done w' | Fatal _ w' => files w' !! other = files w !! other
  | Undef _ => True
  end.
Proof.
  intros Hne. unfold write_to_file, fopen.
  destruct (decide (newfilename N ∈ denied w)).
  { destruct (decide (None = None)); [reflexivity | congruence]. }
  destruct (decide (Some (newfilename N) = None)); [discriminate|].
  unfold fwrite. cbn [space files set_files stdio_buf].
  destruct (decide (Z.to_nat (to_size (imul N N)) <= length X)%nat); [|exact I].
  cbn [bind].
  assert (Hkeep : forall v u : list Z,
             <[newfilename N := v]> (<[newfilename N := u]> (files w)) !! other
             = files w !! other).
  { intros v u. now rewrite !lookup_insert_ne by congruence. }
  destruct (wrap _ =? 0); unfold die; [apply Hkeep|].
  destruct (negb _); apply Hkeep.
Qed.

(** C7. [write_to_file] takes the name of its destination from N alone.
    Run on a 4x4 board that is stored under the name table4x4_new.bin,
    [main] reads the board, plays one generation and writes the result
    over the file it has read. *)
Theorem main_overwrites_its_input :
  newfilename 4 = "table4x4_new.bin" /\
  files lab !! "table4x4_new.bin" = Some blinker /\
  exists w',
    main "table4x4_new.bin" 4 1 lab = Done w' /\
    files w' !! "table4x4_new.bin"
    = Some [0; 0; 0; 0;  1; 1; 1; 0;  0; 0; 0; 0;  0; 0; 0; 0].
Proof.
  split; [vm_compute; reflexivity|]. split; [vm_compute; reflexivity|].
  assert (H : match main "table4x4_new.bin" 4 1 lab with
              | Done w' => files w' !! "table4x4_new.bin"
              | _ => None
              end = Some [0; 0; 0; 0;  1; 1; 1; 0;  0; 0; 0; 0;  0; 0; 0; 0])
    by (vm_compute; reflexivity).
  destruct (main "table4x4_new.bin" 4 1 lab) as [w'| |]; [|discriminate..].
  exists w'. split; [reflexivity | exact H].
Qed.

(** * The engine on the boards the specification names *)

(** The 2x2 block on a 4x4 board is a still life. *)
Example block_is_still :
  step 4 [DEAD; DEAD; DEAD; DEAD;  DEAD; ALIVE; ALIVE; DEAD;
          DEAD; ALIVE; ALIVE; DEAD;  DEAD; DEAD; DEAD; DEAD]
  = [DEAD; DEAD; DEAD; DEAD;  DEAD; ALIVE; ALIVE; DEAD;
     DEAD; ALIVE; ALIVE; DEAD;  DEAD; DEAD; DEAD; DEAD].
Proof. vm_compute. reflexivity. Qed.

(** The vertical blinker turns horizontal, in the code as in [step]. *)
Example blinker_turns :
  (X <- play blinker 4 lab ; Done (fst X))
  = Done [0; 0; 0; 0;  1; 1; 1; 0;  0; 0; 0; 0;  0; 0; 0; 0].
Proof. vm_compute. reflexivity. Qed.

(** On a 3x3 board the corner (0, 0) sees the far corner exactly once. *)
Example far_corner_seen : cell_sum far_corner 3 0 0 = Done 1.
Proof. vm_compute. reflexivity. Qed.

(** A board of side 3 is too small for [printCells], which reads sixteen
    cells of the 4x4 top-left corner whatever N is. *)
Example printCells_small : printCells far_corner 3 = Undef OutOfBounds.
Proof. vm_compute. reflexivity. Qed.

(** * The theorems at sample inputs *)

Lemma play_rule_table_witness :
  exists X' w' x s x',
    play blinker 4 lab = Done (X', w') /\
    rd blinker (1 * 4 + 0) = Done x /\
    cell_sum blinker 4 1 0 = Done s /\
    rd X' (1 * 4 + 0) = Done x' /\
    x = at_ blinker 4 1 0 /\ s = torus_sum blinker 4 1 0 /\ x' = at_ X' 4 1 0 /\
    (x = enc DEAD \/ x = enc ALIVE) /\ 0 <= s <= 8 /\
    (x = enc DEAD -> s = 3 -> x' = enc ALIVE) /\
    (x = enc DEAD -> s <> 3 -> x' = enc DEAD) /\
    (x = enc ALIVE -> s < 2 \/ s > 3 -> x' = enc DEAD) /\
    (x = enc ALIVE -> s = 2 \/ s = 3 -> x' = enc ALIVE).
Proof.
  apply (play_rule_table blinker 4 1 0 lab stale);
    [fits_now | reflexivity | binary_now | reflexivity | lia | lia].
Defined.

Lemma cell_sum_toroidal_witness :
  cell_sum far_corner 3 0 0 = Done (torus_sum far_corner 3 0 0) /\
  exists s, cell_sum far_corner 3 0 0 = Done s /\ 1 <= s.
Proof.
  destruct (cell_sum_toroidal far_corner 3 0 0) as (_ & Hsum & _ & Hcorner);
    [fits_now | reflexivity | lia | lia |].
  split; [apply Hsum; binary_now|].
  apply Hcorner; [binary_now | reflexivity].
Defined.

Lemma play_refines_step_witness :
  play (enc <$> blinker_states) 4 lab
  = Done (enc <$> step 4 blinker_states, set_brk (Datatypes.S (brk lab)) lab).
Proof.
  apply (play_refines_step blinker_states 4 lab stale);
    [fits_now | reflexivity | reflexivity].
Defined.

Lemma play_counts_every_cell_witness :
  (exists s, play_fill blinker 4 (stale <$> seq 0 (Z.to_nat (4 * 4))) = Done s /\
             births s + deaths s + ok s = 4 * 4) /\
  (exists X' w', play blinker 4 lab = Done (X', w') /\ log w' = log lab).
Proof.
  apply (play_counts_every_cell blinker 4 lab stale);
    [fits_now | reflexivity | reflexivity].
Defined.

Lemma run_iterates_play_witness :
  run (enc <$> blinker_states) 4 2 lab
  = Done (enc <$> Nat.iter (Z.to_nat 2) (step 4) blinker_states,
          set_brk (brk lab + Z.to_nat 2) lab).
Proof.
  destruct (run_iterates_play (enc <$> blinker_states) 4 2 lab) as (_ & _ & H);
    [lia|].
  apply H; [reflexivity | fits_now | reflexivity | intros k; discriminate].
Defined.

Lemma play_preserves_binary_witness :
  exists X' w',
    play blinker 4 lab = Done (X', w') /\ binary X' /\ length X' = length blinker.
Proof.
  apply (play_preserves_binary blinker 4 lab stale);
    [fits_now | reflexivity | binary_now | reflexivity].
Defined.

Lemma read_from_file_unopenable_witness :
  read_from_file (stale <$> seq 0 16) "missing.bin" 4 lab = Undef NullStream.
Proof.
  apply read_from_file_unopenable. right. vm_compute. reflexivity.
Defined.

Lemma read_from_file_short_witness :
  read_from_file (stale <$> seq 0 16) "short.bin" 4 (set_brk 1 lab)
  = Done ([1; 0; 1; 10; 11; 12; 13; 14; 15; 16; 17; 18; 19; 20; 21; 22],
          warn "Expected to read different number of elements" (set_brk 1 lab)) /\
  log (warn "Expected to read different number of elements" (set_brk 1 lab))
  = log lab ++ ["Expected to read different number of elements"] /\
  main "short.bin" 4 1 lab =
    ('(table2, w3) <-
        run [1; 0; 1; 10; 11; 12; 13; 14; 15; 16; 17; 18; 19; 20; 21; 22] 4 1
            (warn "Expected to read different number of elements" (set_brk 1 lab)) ;
     _ <- printCells table2 4 ;
     write_to_file table2 "short.bin" 4 w3).
Proof.
  destruct (read_from_file_short [1; 0; 1] "short.bin" 4 1 lab stale)
    as (Hread & Hlog & _ & _ & _ & _ & _ & Hmain & _).
  - fits_now.
  - reflexivity.
  - apply not_elem_of_empty.
  - vm_compute. reflexivity.
  - cbn. lia.
  - split; [exact Hread|]. split; [exact Hlog | apply Hmain; lia].
Defined.

Lemma play_single_cell_witness :
  cell_sum [1] 1 0 0 = Done 8 /\
  play [1] 1 lab = Done ([0], set_brk (Datatypes.S (brk lab)) lab).
Proof.
  destruct (play_single_cell 1 lab stale) as (_ & _ & _ & H).
  destruct (H (or_intror eq_refl)) as (Hsum & Hplay).
  split; [exact Hsum | exact (Hplay eq_refl)].
Defined.

(** * More on reading and writing *)

Lemma count_int (N : Z) : fits N -> to_size (imul N N) = N * N.
Proof.
  intros HN. pose proof (fits_side N HN) as HS.
  unfold to_size, imul, SIZE_MOD.
  rewrite wrap_id by (unfold INT_MIN, INT_MAX; nia).
  apply Z.mod_small. nia.
Qed.

Lemma fopen_write_ok (name : string) (w : world) :
  name ∉ denied w ->
  fopen name WriteUpdate w = (Some name, set_files (<[name := []]> (files w)) w).
Proof.
  intros Hd. unfold fopen. now destruct (decide (name ∈ denied w)).
Qed.

Lemma direct_le (n buf : nat) : (direct n buf <= n)%nat.
Proof.
  unfold direct. destruct (decide (buf = 0%nat)); [lia|].
  apply Nat.Div0.mul_div_le.
Qed.

Lemma direct_small (n buf : nat) : (n < buf)%nat -> direct n buf = 0%nat.
Proof.
  intros H. unfold direct. destruct (decide (buf = 0%nat)); [lia|].
  rewrite Nat.div_small by assumption. lia.
Qed.

Lemma direct_large (n buf : nat) :
  (0 < n)%nat -> (buf <= n)%nat -> (0 < direct n buf)%nat.
Proof.
  intros Hn H. unfold direct. destruct (decide (buf = 0%nat)); [lia|].
  assert (1 <= n / buf)%nat by (apply Nat.div_le_lower_bound; lia). nia.
Qed.

(** What [write_to_file] does once the destination has opened:
    [reported] is the count [fwrite] gives back, [kept] the number of
    elements the file ends up with. *)
Lemma write_to_file_opened (X : list Z) (filename : string) (N : Z) (w : world) :
  fits N -> length X = Z.to_nat (N * N) ->
  newfilename N ∉ denied w ->
  write_to_file X filename N w =
    let n := Z.to_nat (N * N) in
    let reported :=
      if decide (direct n (stdio_buf w) <= space w)%nat then n else space w in
    let kept := Nat.min n (space w) in
    let w' := set_space (space w - kept)%nat
                (set_files (<[newfilename N := take kept X]> (files w)) w) in
    if decide (reported = 0%nat) then Fatal "Couldn't write to file" w'
    else Done (if decide (reported = n) then w'
               else warn "Expected to write different number of elements" w').
Proof.
  intros HN HX Hd. assert (Hmax : N * N <= INT_MAX) by apply HN.
  pose proof (fits_side N HN) as HS. unfold INT_MAX in Hmax.
  unfold write_to_file. rewrite (fopen_write_ok _ w Hd).
  destruct (decide (Some (newfilename N) = None)); [discriminate|].
  unfold fwrite. rewrite (count_int N HN).
  cbn [space files set_files stdio_buf]. cbv zeta.
  set (cnt := Z.to_nat (N * N)).
  set (kept := Nat.min cnt (space w)).
  set (reported := if decide (direct cnt (stdio_buf w) <= space w)%nat
                   then cnt else space w).
  assert (Hrep : (reported <= cnt)%nat).
  { subst reported. pose proof (direct_le cnt (stdio_buf w)).
    destruct (decide (direct cnt (stdio_buf w) <= space w)%nat); lia. }
  destruct (decide (cnt <= length X)%nat); [|lia]. cbn [bind].
  rewrite insert_insert_eq.
  assert (Hw : set_space (space w - kept)%nat
                 (set_files (<[newfilename N := take kept X]> (files w))
                    (set_files (<[newfilename N := []]> (files w)) w))
               = set_space (space w - kept)%nat
                   (set_files (<[newfilename N := take kept X]> (files w)) w))
    by reflexivity.
  rewrite Hw. rewrite wrap_id by (unfold INT_MIN, INT_MAX; lia).
  unfold die. destruct (decide (reported = 0%nat)) as [Hk0|Hk0].
  { rewrite Hk0. reflexivity. }
  destruct (Z.eqb_spec (Z.of_nat reported) 0); [lia|].
  unfold imul. rewrite wrap_id by (unfold INT_MIN, INT_MAX; nia).
  destruct (decide (reported = cnt)) as [Hfull|Hshort].
  - destruct (Z.eqb_spec (Z.of_nat reported) (N * N)); [reflexivity | lia].
  - destruct (Z.eqb_spec (Z.of_nat reported) (N * N)); [lia | reflexivity].
Qed.

Lemma write_to_file_full (X : list Z) (filename : string) (N : Z) (w : world) :
  fits N -> length X = Z.to_nat (N * N) ->
  newfilename N ∉ denied w -> (Z.to_nat (N * N) <= space w)%nat ->
  write_to_file X filename N w = Done (written X N w).
Proof.
  intros HN HX Hd Hroom. pose proof (fits_side N HN) as HS.
  rewrite (write_to_file_opened X filename N w HN HX Hd). cbv zeta.
  rewrite Nat.min_l by lia.
  pose proof (direct_le (Z.to_nat (N * N)) (stdio_buf w)).
  destruct (decide (direct (Z.to_nat (N * N)) (stdio_buf w) <= space w)%nat);
    [|lia].
  destruct (decide (Z.to_nat (N * N) = 0%nat)); [nia|].
  destruct (decide (Z.to_nat (N * N) = Z.to_nat (N * N))); [|congruence].
  unfold written. now rewrite <- HX, firstn_all.
Qed.

Lemma read_from_file_full (X data : list Z) (filename : string) (N : Z) (w : world) :
  fits N -> length X = Z.to_nat (N * N) ->
  filename ∉ denied w -> files w !! filename = Some data ->
  (Z.to_nat (N * N) <= length data)%nat ->
  read_from_file X filename N w = Done (take (Z.to_nat (N * N)) data, w).
Proof.
  intros HN HX Hd Hf Hlen. pose proof (fits_side N HN) as HS.
  rewrite (read_from_file_opened X data filename N w HN HX Hd Hf). cbv zeta.
  rewrite Nat.min_l by lia.
  destruct (decide (Z.to_nat (N * N) = 0%nat)); [nia|].
  destruct (decide (Z.to_nat (N * N) = Z.to_nat (N * N))); [|congruence].
  rewrite <- HX at 2. rewrite drop_all. now rewrite app_nil_r.
Qed.

(** X1. With room on the device and a destination that opens,
    [write_to_file] returns: the file named after N holds exactly the
    board, no other file is touched and nothing is logged. *)
Theorem write_to_file_persists (X : list Z) (filename : string) (N : Z) (w : world) :
  fits N -> length X = Z.to_nat (N * N) ->
  newfilename N ∉ denied w -> (Z.to_nat (N * N) <= space w)%nat ->
  exists w',
    write_to_file X filename N w = Done w' /\
    files w' !! newfilename N = Some X /\
    (forall other, other <> newfilename N -> files w' !! other = files w !! other) /\
    log w' = log w /\
    space w' = (space w - Z.to_nat (N * N))%nat.
Proof.
  intros HN HX Hd Hroom. exists (written X N w).
  split; [now apply write_to_file_full|].
  unfold written; cbn [files log space set_space set_files].
  split; [apply lookup_insert_eq|].
  split; [|split; reflexivity].
  intros other Hne. now rewrite lookup_insert_ne by congruence.
Qed.

(** X2. Round trip: what [write_to_file] has written, [read_from_file] reads
    back from the new file as the same sequence, into any buffer of the
    right size and without a warning. *)
Theorem write_then_read (X X0 : list Z) (filename : string) (N : Z) (w : world) :
  fits N -> length X = Z.to_nat (N * N) -> length X0 = Z.to_nat (N * N) ->
  newfilename N ∉ denied w -> (Z.to_nat (N * N) <= space w)%nat ->
  exists w',
    write_to_file X filename N w = Done w' /\
    read_from_file X0 (newfilename N) N w' = Done (X, w').
Proof.
  intros HN HX HX0 Hd Hroom. exists (written X N w).
  split; [now apply write_to_file_full|].
  rewrite (read_from_file_full X0 X (newfilename N) N (written X N w));
    try assumption.
  - now rewrite <- HX, firstn_all.
  - unfold written; cbn [files set_space set_files]. apply lookup_insert_eq.
  - lia.
Qed.

(** X3. A device with no room left.  Whatever the board, the
    destination ends up empty: what a file of that name held before is
    gone.  A board at least as large as the stream buffer is handed to
    the device by [fwrite] itself, which reports 0, and
    [write_to_file] dies.  A smaller board only waits in the buffer:
    [fwrite] reports all of it, the failure comes with the flush that
    nobody checks, and [write_to_file] returns as if all were well, with
    nothing added to the log. *)
Theorem write_to_file_no_room (X : list Z) (filename : string) (N : Z) (w : world) :
  fits N -> length X = Z.to_nat (N * N) ->
  newfilename N ∉ denied w -> space w = 0%nat ->
  ((stdio_buf w <= Z.to_nat (N * N))%nat ->
   exists w',
     write_to_file X filename N w = Fatal "Couldn't write to file" w' /\
     files w' !! newfilename N = Some []) /\
  ((Z.to_nat (N * N) < stdio_buf w)%nat ->
   exists w',
     write_to_file X filename N w = Done w' /\
     files w' !! newfilename N = Some [] /\
     log w' = log w).
Proof.
  intros HN HX Hd Hroom. pose proof (fits_side N HN) as HS.
  rewrite (write_to_file_opened X filename N w HN HX Hd). cbv zeta.
  rewrite Hroom, Nat.min_0_r. split.
  - intros Hbuf.
    pose proof (direct_large (Z.to_nat (N * N)) (stdio_buf w) ltac:(nia) Hbuf).
    destruct (decide (direct (Z.to_nat (N * N)) (stdio_buf w) <= 0)%nat); [lia|].
    destruct (decide (0%nat = 0%nat)); [|congruence].
    eexists. split; [reflexivity|].
    cbn [files set_space set_files]. apply lookup_insert_eq.
  - intros Hbuf. rewrite (direct_small _ _ Hbuf).
    destruct (decide (0 <= 0)%nat); [|lia].
    destruct (decide (Z.to_nat (N * N) = 0%nat)); [nia|].
    destruct (decide (Z.to_nat (N * N) = Z.to_nat (N * N))); [|congruence].
    eexists. split; [reflexivity|].
    cbn [files log set_space set_files].
    split; [apply lookup_insert_eq | reflexivity].
Qed.

(** X4. A device with room for some elements but not for all.  The
    destination ends up with the elements that fitted, a prefix of the
    board.  When the part [fwrite] hands to the device at once does not
    fit, [fwrite] reports the short count, and [write_to_file] returns
    with the count warning added to the log.  When that part fits (as
    with every board smaller than the stream buffer), [fwrite] reports
    the full count and [write_to_file] returns with the truncated file
    and without a warning. *)
Theorem write_to_file_short (X : list Z) (filename : string) (N : Z) (w : world) :
  fits N -> length X = Z.to_nat (N * N) ->
  newfilename N ∉ denied w -> (0 < space w < Z.to_nat (N * N))%nat ->
  ((space w < direct (Z.to_nat (N * N)) (stdio_buf w))%nat ->
   exists w',
     write_to_file X filename N w = Done w' /\
     files w' !! newfilename N = Some (take (space w) X) /\
     log w' = log w ++ ["Expected to write different number of elements"] /\
     space w' = 0%nat) /\
  ((direct (Z.to_nat (N * N)) (stdio_buf w) <= space w)%nat ->
   exists w',
     write_to_file X filename N w = Done w' /\
     files w' !! newfilename N = Some (take (space w) X) /\
     log w' = log w /\
     space w' = 0%nat).
Proof.
  intros HN HX Hd Hroom.
  rewrite (write_to_file_opened X filename N w HN HX Hd). cbv zeta.
  rewrite Nat.min_r by lia. split.
  - intros Hdirect.
    destruct (decide (direct (Z.to_nat (N * N)) (stdio_buf w) <= space w)%nat);
      [lia|].
    destruct (decide (space w = 0%nat)); [lia|].
    destruct (decide (space w = Z.to_nat (N * N))); [lia|].
    eexists. split; [reflexivity|].
    unfold warn; cbn [files log space set_space set_files set_log].
    split; [apply lookup_insert_eq|]. split; [reflexivity | lia].
  - intros Hdirect.
    destruct (decide (direct (Z.to_nat (N * N)) (stdio_buf w) <= space w)%nat);
      [|lia].
    destruct (decide (Z.to_nat (N * N) = 0%nat)); [lia|].
    destruct (decide (Z.to_nat (N * N) = Z.to_nat (N * N))); [|congruence].
    eexists. split; [reflexivity|].
    cbn [files log space set_space set_files].
    split; [apply lookup_insert_eq|]. split; [reflexivity | lia].
Qed.

(** X8. A file with more than N * N elements: [read_from_file] takes the
    first N * N, and the rest goes unread and unreported. *)
Theorem read_from_file_ignores_rest (X data : list Z) (filename : string) (N : Z)
        (w : world) :
  fits N -> length X = Z.to_nat (N * N) ->
  filename ∉ denied w -> files w !! filename = Some data ->
  (Z.to_nat (N * N) < length data)%nat ->
  read_from_file X filename N w = Done (take (Z.to_nat (N * N)) data, w).
Proof.
  intros HN HX Hd Hf Hlen. apply read_from_file_full; try assumption. lia.
Qed.

(** X9. An empty file, or N = 0, with a source that opens: [fread] reads no
    element, whatever the buffer, and [read_from_file] dies; [main] then
    ends with that error, one allocation made and no file written. *)
Theorem read_from_file_nothing (X data : list Z) (filename : string) (N t : Z)
        (w : world) :
  filename ∉ denied w -> files w !! filename = Some data ->
  data = [] \/ N = 0 ->
  read_from_file X filename N w = Fatal "Couldn't read from file" w /\
  main filename N t w
  = Fatal "Couldn't read from file" (set_brk (Datatypes.S (brk w)) w).
Proof.
  intros Hd Hf Hcase.
  assert (Hread : forall (Y : list Z) (v : world),
             denied v = denied w -> files v = files w ->
             read_from_file Y filename N v = Fatal "Couldn't read from file" v).
  { intros Y v Hdv Hfv. unfold read_from_file.
    rewrite (fopen_read_ok filename data v) by (rewrite ?Hdv, ?Hfv; assumption).
    unfold fread. rewrite Hfv, Hf. cbn [default from_option id].
    assert (Hk : Nat.min (Z.to_nat (to_size (imul N N))) (length data) = 0%nat).
    { destruct Hcase as [-> | ->]; [apply Nat.min_0_r | reflexivity]. }
    rewrite Hk. destruct (decide (0 <= length Y)%nat); [|lia]. cbn [bind].
    destruct (decide (Some filename = None)); [discriminate|]. reflexivity. }
  split; [now apply Hread|].
  unfold main, malloc.
  destruct (heap w (brk w)); cbv beta iota zeta;
    rewrite Hread by reflexivity; reflexivity.
Qed.

(** * More on the engine *)

(** ** Whatever the arguments *)

Lemma for_loop_keeps {S : Type} (P : S -> Prop) (body : Z -> S -> res S) (n : nat) :
  (forall k s1 s2, P s1 -> body k s1 = Done s2 -> P s2) ->
  forall i s s', P s -> for_loop n i body s = Done s' -> P s'.
Proof.
  intros Hbody. induction n as [|n IH]; intros i s s' Hs E.
  - cbn in E. now injection E as <-.
  - cbn [for_loop] in E. destruct (body i s) as [s1| |] eqn:E1; try discriminate.
    cbn [bind] in E. exact (IH _ _ _ (Hbody _ _ _ Hs E1) E).
Qed.

Lemma pure_bind {A B : Type} (m : res A) (k : A -> res B) :
  pure_res m -> (forall a, pure_res (k a)) -> pure_res (bind m k).
Proof.
  intros Hm Hk msg w. destruct m as [a|msg0 w0|u]; cbn [bind].
  - apply Hk.
  - intros _. exact (Hm msg0 w0 eq_refl).
  - discriminate.
Qed.

Lemma pure_rd (X : list Z) (k : Z) : pure_res (rd X k).
Proof.
  intros msg w. unfold rd. destruct (k <? 0); [discriminate|].
  destruct (X !! Z.to_nat k); discriminate.
Qed.

Lemma pure_wr (X : list Z) (k v : Z) : pure_res (wr X k v).
Proof.
  intros msg w. unfold wr. destruct (k <? 0); [discriminate|].
  destruct (decide (Z.to_nat k < length X)%nat); discriminate.
Qed.

Lemma pure_for_loop {S : Type} (body : Z -> S -> res S) (n : nat) :
  (forall k s, pure_res (body k s)) -> forall i s, pure_res (for_loop n i body s).
Proof.
  intros Hbody. induction n as [|n IH]; intros i s; [discriminate|].
  cbn [for_loop]. apply pure_bind; [apply Hbody | intros a; apply IH].
Qed.

Lemma pure_play_fill (X : list Z) (N : Z) (new0 : list Z) :
  pure_res (play_fill X N new0).
Proof.
  unfold play_fill, for_upto. apply pure_for_loop. intros i s.
  apply pure_for_loop. intros j s1. unfold play_cell.
  apply pure_bind.
  { unfold cell_sum. cbv zeta.
    repeat (apply pure_bind; [apply pure_rd | intros ?]). discriminate. }
  intros sum. apply pure_bind; [apply pure_rd | intros x].
  destruct ((x =? 0) && (sum =? 3)).
  { apply pure_bind; [apply pure_wr | discriminate]. }
  destruct ((x =? 1) && ((sum <? 2) || (sum >? 3)));
    (apply pure_bind; [apply pure_wr | discriminate]).
Qed.

Lemma pure_play_copy (src : list Z) (N : Z) (X : list Z) :
  pure_res (play_copy src N X).
Proof.
  unfold play_copy, for_upto. apply pure_for_loop. intros i Y.
  apply pure_for_loop. intros j Y1. unfold copy_cell.
  apply pure_bind; [apply pure_rd | intros v; apply pure_wr].
Qed.

Lemma play_copy_length (src : list Z) (N : Z) (X X' : list Z) :
  play_copy src N X = Done X' -> length X' = length X.
Proof.
  unfold play_copy, for_upto.
  apply (for_loop_keeps (fun Y => length Y = length X)); [|reflexivity].
  intros i Y1 Y2 H1.
  apply (for_loop_keeps (fun Y => length Y = length X)); [|exact H1].
  intros j Y3 Y4 H3. unfold copy_cell.
  destruct (rd src (iadd (imul i N) j)) as [v| |]; cbn [bind]; try discriminate.
  unfold wr. destruct (iadd (imul i N) j <? 0); [discriminate|].
  destruct (decide _); [|discriminate].
  intros E. injection E as <-. now rewrite length_insert.
Qed.

(** X10. Whatever the board, the side and the world: when [play] returns, the
    board has the length it had, one block has been allocated, and the
    files, the names that cannot be written and the room on the device
    are as before. *)
Theorem play_frame (X X' : list Z) (N : Z) (w w' : world) :
  play X N w = Done (X', w') ->
  length X' = length X /\
  files w' = files w /\ denied w' = denied w /\ space w' = space w /\
  brk w' = Datatypes.S (brk w).
Proof.
  unfold play, malloc. destruct (heap w (brk w)) as [g|]; [|discriminate].
  destruct (play_fill X N _) as [s| |]; cbn [bind]; try discriminate.
  destruct (play_copy (new s) N X) as [Y| |] eqn:EY; cbn [bind]; try discriminate.
  intros E. injection E as <- <-.
  split; [exact (play_copy_length _ _ _ _ EY)|].
  destruct (negb _); repeat split.
Qed.

(** X11. [play] dies in one case only, the failed allocation: then the
    message is that of line 94 and the board has not been read. *)
Theorem play_dies_on_malloc_only (X : list Z) (N : Z) (w w' : world) (msg : string) :
  play X N w = Fatal msg w' <->
  heap w (brk w) = None /\ msg = "Memory allocation failed" /\
  w' = set_brk (Datatypes.S (brk w)) w.
Proof.
  unfold play, malloc. destruct (heap w (brk w)) as [g|].
  - split; [|intros [H _]; discriminate].
    intros E. exfalso.
    destruct (play_fill X N _) as [s| |] eqn:Es; cbn [bind] in E.
    + destruct (play_copy (new s) N X) as [Y| |] eqn:EY; cbn [bind] in E;
        try discriminate.
      exact (pure_play_copy _ _ _ _ _ EY).
    + exact (pure_play_fill _ _ _ _ _ Es).
    + discriminate.
  - unfold die. split.
    + intros E. injection E as <- <-. repeat split.
    + intros (_ & -> & ->). reflexivity.
Qed.

(** X12. With N = 0 or N negative neither loop of [play] runs a single time:
    the board is returned as it came.  With N = 0 the tally passes the
    test of line 143; with a negative N it does not, N * N being
    positive, and the warning of line 144 is added at the end of the
    log. *)
Theorem play_without_cells (X : list Z) (N : Z) (w : world) (garbage : nat -> Z) :
  heap w (brk w) = Some garbage ->
  (N = 0 ->
   play X N w = Done (X, set_brk (Datatypes.S (brk w)) w) /\
   log (set_brk (Datatypes.S (brk w)) w) = log w) /\
  (-46340 <= N < 0 ->
   exists w',
     play X N w = Done (X, w') /\
     w' = warn "Testing issue - not all cells were taken into account"
               (set_brk (Datatypes.S (brk w)) w) /\
     log w' = log w ++ ["Testing issue - not all cells were taken into account"] /\
     files w' = files w /\ brk w' = Datatypes.S (brk w)).
Proof.
  intros Hg.
  assert (Hplay : N <= 0 ->
            play X N w
            = Done (X, if negb (0 =? imul N N)
                       then warn "Testing issue - not all cells were taken into account"
                                 (set_brk (Datatypes.S (brk w)) w)
                       else set_brk (Datatypes.S (brk w)) w)).
  { intros HN. unfold play, malloc. rewrite Hg.
    unfold play_fill, play_copy, for_upto. rewrite (Z2Nat.nonpos N HN).
    reflexivity. }
  split.
  - intros ->. split; [now rewrite Hplay | reflexivity].
  - intros HN. eexists. split; [|repeat split].
    rewrite Hplay by lia. unfold imul.
    rewrite wrap_id by (unfold INT_MIN, INT_MAX; nia).
    destruct (Z.eqb_spec 0 (N * N)); [nia | reflexivity].
Qed.

(** X13. A stored value that is neither 0 nor 1 (what a short read leaves in
    the tail of the buffer) is never changed by [play]. *)
Theorem play_keeps_other_values (X : list Z) (N i j x : Z) (w : world)
        (garbage : nat -> Z) :
  fits N -> length X = Z.to_nat (N * N) ->
  heap w (brk w) = Some garbage ->
  0 <= i < N -> 0 <= j < N ->
  rd X (i * N + j) = Done x -> x <> 0 -> x <> 1 ->
  exists X' w', play X N w = Done (X', w') /\ rd X' (i * N + j) = Done x.
Proof.
  intros HN HX Hg Hi Hj Hx H0 H1.
  pose proof (index_range N i j HN Hi Hj) as Hk.
  exists (next_gen X N), (set_brk (Datatypes.S (brk w)) w).
  split; [exact (play_next_gen N X HN HX w garbage Hg)|].
  rewrite rd_in in Hx by lia. injection Hx as Hx.
  rewrite rd_in by (rewrite next_gen_length; lia).
  rewrite (Z.mul_comm i N), next_gen_lookup by assumption. cbn [default from_option id].
  f_equal. unfold at_. rewrite Hx. unfold next.
  destruct (Z.eqb_spec x 0); [contradiction|].
  destruct (Z.eqb_spec x 1); [contradiction|]. reflexivity.
Qed.

(** ** The dead board *)

Lemma at_replicate (n : nat) (N r c : Z) : at_ (replicate n 0) N r c = 0.
Proof.
  unfold at_. destruct (replicate n 0 !! Z.to_nat (r * N + c)) as [v|] eqn:E;
    [|reflexivity].
  apply lookup_replicate in E. now destruct E as [-> _].
Qed.

Lemma step_dead (N : Z) :
  step N (replicate (Z.to_nat (N * N)) DEAD) = replicate (Z.to_nat (N * N)) DEAD.
Proof.
  apply list_eq. intros k. unfold step. rewrite list_lookup_fmap.
  destruct (decide (k < Z.to_nat (N * N))%nat) as [Hk|Hk].
  - rewrite lookup_seq_lt by assumption. rewrite lookup_replicate_2 by assumption.
    cbn. f_equal.
    assert (Hcell : forall r c,
               cell (replicate (Z.to_nat (N * N)) DEAD) N r c = DEAD).
    { intros r c. unfold cell.
      destruct (replicate _ DEAD !! Z.to_nat (r * N + c)) as [v|] eqn:E;
        [|reflexivity].
      apply lookup_replicate in E. now destruct E as [-> _]. }
    rewrite Hcell. unfold live_neighbours, torus_sum.
    rewrite fmap_replicate. cbn [enc]. rewrite !at_replicate. reflexivity.
  - rewrite lookup_seq_ge by lia. symmetry. apply lookup_replicate_None. lia.
Qed.

(** X17. The board with no live cell stays so for any number of
    generations. *)
Theorem run_dead_board (N t : Z) (w : world) :
  fits N -> 0 <= t -> (forall k, heap w k <> None) ->
  run (replicate (Z.to_nat (N * N)) 0) N t w
  = Done (replicate (Z.to_nat (N * N)) 0, set_brk (brk w + Z.to_nat t) w).
Proof.
  intros HN Ht Hheap.
  assert (Hiter : forall n,
             Nat.iter n (step N) (replicate (Z.to_nat (N * N)) DEAD)
             = replicate (Z.to_nat (N * N)) DEAD).
  { induction n as [|n IH]; [reflexivity|]. rewrite Nat.iter_succ, IH.
    apply step_dead. }
  change (replicate (Z.to_nat (N * N)) 0)
    with (replicate (Z.to_nat (N * N)) (enc DEAD)).
  rewrite <- fmap_replicate.
  unfold run, for_upto. rewrite for_loop_times.
  rewrite times_play_step; [| assumption | apply length_replicate | assumption].
  now rewrite Hiter.
Qed.

(** ** Composing and interrupting the run *)

Lemma times_add {S : Type} (f : S -> res S) (n m : nat) (s : S) :
  times (n + m) f s = (s1 <- times n f s ; times m f s1).
Proof.
  revert s. induction n as [|n IH]; intros s; [reflexivity|].
  cbn [Nat.add times]. destruct (f s); cbn [bind]; [apply IH | reflexivity..].
Qed.

(** X18. Playing t1 + t2 generations is playing t1 and then t2 from the
    board and the world the first run left. *)
Theorem run_add (X : list Z) (N t1 t2 : Z) (w : world) :
  0 <= t1 -> 0 <= t2 ->
  run X N (t1 + t2) w = ('(X1, w1) <- run X N t1 w ; run X1 N t2 w1).
Proof.
  intros H1 H2. unfold run, for_upto. rewrite !for_loop_times.
  rewrite Z2Nat.inj_add, times_add by assumption.
  destruct (times (Z.to_nat t1) _ (X, w)) as [[X1 w1]| |]; cbn [bind];
    [|reflexivity..].
  now rewrite for_loop_times.
Qed.

Lemma times_play_dies (N : Z) (k n : nat) (g : list state) (w : world) :
  fits N -> length g = Z.to_nat (N * N) ->
  (k < n)%nat ->
  (forall j, (j < k)%nat -> heap w (brk w + j)%nat <> None) ->
  heap w (brk w + k)%nat = None ->
  times n (fun '(X, w) => play X N w) (enc <$> g, w)
  = Fatal "Memory allocation failed" (set_brk (brk w + k + 1) w).
Proof.
  intros HN. revert n g w. induction k as [|k IH]; intros n g w Hlen Hkn Hok Hfail.
  - destruct n as [|n]; [lia|]. cbn [times].
    rewrite Nat.add_0_r in Hfail. unfold play, malloc. rewrite Hfail.
    cbn [bind die]. unfold die. do 2 f_equal. lia.
  - destruct n as [|n]; [lia|]. cbn [times].
    destruct (heap w (brk w)) as [garbage|] eqn:Hg.
    2:{ exfalso. apply (Hok 0%nat); [lia|]. now rewrite Nat.add_0_r. }
    rewrite (play_on_states N g w garbage HN Hlen Hg). cbn [bind].
    rewrite IH.
    + f_equal. destruct w. unfold set_brk. cbn. f_equal. lia.
    + apply step_length.
    + lia.
    + intros j Hj. cbn [heap brk set_brk].
      replace (Datatypes.S (brk w) + j)%nat with (brk w + Datatypes.S j)%nat by lia.
      apply Hok. lia.
    + cbn [heap brk set_brk].
      now replace (Datatypes.S (brk w) + k)%nat with (brk w + Datatypes.S k)%nat by lia.
Qed.

(** X19. If the first k allocations succeed and the next one fails, with
    k < t, the run ends in generation k with the allocation error: k + 1
    blocks have been asked for and the later generations are not
    played. *)
Theorem run_dies_at (g : list state) (N t : Z) (k : nat) (w : world) :
  fits N -> length g = Z.to_nat (N * N) ->
  (k < Z.to_nat t)%nat ->
  (forall j, (j < k)%nat -> heap w (brk w + j)%nat <> None) ->
  heap w (brk w + k)%nat = None ->
  run (enc <$> g) N t w
  = Fatal "Memory allocation failed" (set_brk (brk w + k + 1) w).
Proof.
  intros HN Hlen Hk Hok Hfail. unfold run, for_upto. rewrite for_loop_times.
  now apply times_play_dies.
Qed.

(** ** The tally *)

Lemma population_app (l1 l2 : list Z) :
  population (l1 ++ l2) = population l1 + population l2.
Proof.
  unfold population. induction l1 as [|a l1 IH]; cbn [foldr app]; [lia|].
  fold (l1 ++ l2). rewrite IH. lia.
Qed.

Lemma population_take_S (l : list Z) (n : nat) (x : Z) :
  l !! n = Some x ->
  population (take (Datatypes.S n) l) = population (take n l) + x.
Proof.
  intros H. rewrite (take_S_r l n x H), population_app.
  unfold population. cbn [foldr]. lia.
Qed.

Lemma play_cell_tallied (X : list Z) (N i j : Z) (s : tally) :
  fits N -> length X = Z.to_nat (N * N) ->
  0 <= i < N -> 0 <= j < N -> tallied X N (N * i + j) s ->
  exists s', play_cell X N i j s = Done s' /\ tallied X N (N * i + (j + 1)) s'.
Proof.
  intros HN HX Hi Hj [Hf Ht].
  destruct (play_cell_filled N X HN HX i j s Hi Hj Hf) as (s' & E & Hf').
  exists s'. split; [exact E|]. split; [exact Hf'|].
  pose proof (index_range N i j HN Hi Hj) as Hk.
  assert (Hmax : N * N <= INT_MAX) by apply HN.
  destruct Hf as (Hlen & _ & Hb & Hd & Ho & Hsum).
  replace (Z.to_nat (N * i + (j + 1))) with (Datatypes.S (Z.to_nat (N * i + j)))
    by lia.
  rewrite (population_take_S (next_gen X N) _ _ (next_gen_lookup X N i j HN Hi Hj)).
  assert (HXk : X !! Z.to_nat (N * i + j) = Some (at_ X N i j)).
  { unfold at_. rewrite (Z.mul_comm i N).
    destruct (X !! Z.to_nat (N * i + j)) eqn:EX; [reflexivity|].
    apply lookup_ge_None in EX. lia. }
  rewrite (population_take_S X _ _ HXk).
  assert (Hinc : forall c, 0 <= c <= N * i + j -> iadd c 1 = c + 1).
  { intros c Hc. apply wrap_id. unfold INT_MIN, INT_MAX in *. lia. }
  revert E. unfold play_cell.
  rewrite (cell_sum_wrap N X HN HX) by assumption. cbn [bind].
  rewrite index_int' by assumption. rewrite rd_in by lia. cbn [bind].
  rewrite !wr_in by lia.
  replace (default 0 (X !! Z.to_nat (N * i + j))) with (at_ X N i j)
    by (now rewrite HXk).
  unfold next.
  destruct ((at_ X N i j =? 0) && (wrap (torus_sum X N i j) =? 3)) eqn:E1.
  - apply andb_true_iff in E1 as [E1 _]. apply Z.eqb_eq in E1.
    cbn [bind]. intros E. injection E as <-. cbn [births deaths].
    rewrite Hinc by lia. lia.
  - destruct ((at_ X N i j =? 1) &&
              ((wrap (torus_sum X N i j) <? 2) || (wrap (torus_sum X N i j) >? 3)))
      eqn:E2.
    + apply andb_true_iff in E2 as [E2 _]. apply Z.eqb_eq in E2.
      cbn [bind]. intros E. injection E as <-. cbn [births deaths].
      rewrite Hinc by lia. lia.
    + cbn [bind]. intros E. injection E as <-. cbn [births deaths]. lia.
Qed.

Lemma play_fill_tallied (X : list Z) (N : Z) (new0 : list Z) :
  fits N -> length X = Z.to_nat (N * N) -> length new0 = Z.to_nat (N * N) ->
  exists s, play_fill X N new0 = Done s /\ tallied X N (N * N) s.
Proof.
  intros HN HX Hlen. pose proof (fits_side N HN) as HS. unfold play_fill.
  apply (for_upto_inv (fun i s => tallied X N (N * i) s)); [lia | |].
  - rewrite Z.mul_0_r. split.
    + unfold filled; cbn [new births deaths ok].
      repeat split; solve [assumption | lia].
    + reflexivity.
  - intros i s Hi Hs.
    destruct (for_upto_inv (fun j s => tallied X N (N * i + j) s)
                (fun j => play_cell X N i j) N s) as (s' & E & Hs').
    + lia.
    + now rewrite Z.add_0_r.
    + intros j s1 Hj Hs1. now apply play_cell_tallied.
    + exists s'. split; [exact E|].
      replace (N * (i + 1)) with (N * i + N) by lia. exact Hs'.
Qed.

(** X14. The tally of [play] is exact: the board it returns has as many live
    cells as the board it was given, plus the births, minus the deaths
    (for stored values in general, the sums of the values differ by
    births - deaths); the three counters are not negative and add up
    to N * N. *)
Theorem play_tally_exact (X : list Z) (N : Z) (w : world) (garbage : nat -> Z) :
  fits N -> length X = Z.to_nat (N * N) ->
  heap w (brk w) = Some garbage ->
  exists s X' w',
    play_fill X N (garbage <$> seq 0 (Z.to_nat (N * N))) = Done s /\
    play X N w = Done (X', w') /\
    population X' = population X + births s - deaths s /\
    0 <= births s /\ 0 <= deaths s /\ 0 <= ok s /\
    births s + deaths s + ok s = N * N.
Proof.
  intros HN HX Hg.
  destruct (play_fill_tallied X N (garbage <$> seq 0 (Z.to_nat (N * N))) HN HX)
    as (s & E & Hf & Ht).
  { now rewrite length_fmap, length_seq. }
  exists s, (next_gen X N), (set_brk (Datatypes.S (brk w)) w).
  split; [exact E|].
  split; [exact (play_next_gen N X HN HX w garbage Hg)|].
  rewrite !firstn_all2 in Ht by (rewrite ?next_gen_length; lia).
  destruct Hf as (_ & _ & Hb & Hd & Ho & Hsum).
  repeat split; lia.
Qed.

(** ** Small boards *)

(** X20. [printCells] reads the 4x4 corner whatever the side: it returns
    exactly when the side is at least 4.  On a board of side 1, 2 or 3
    it reads past the end of the board; [main] calls it right after the
    read, so with such a side and a source that yields at least one
    element [main] runs into that read before it plays a generation. *)
Theorem printCells_small_board (table data : list Z) (filename : string) (N t : Z)
        (w : world) (garbage : nat -> Z) :
  fits N -> length table = Z.to_nat (N * N) ->
  (printCells table N = Done tt <-> 4 <= N) /\
  (N <= 3 ->
   printCells table N = Undef OutOfBounds /\
   (heap w (brk w) = Some garbage ->
    filename ∉ denied w -> files w !! filename = Some data -> data <> [] ->
    main filename N t w = Undef OutOfBounds)).
Proof.
  intros HfitsN Hlen.
  assert (Hsmall : N <= 3 ->
            printCells table N = Undef OutOfBounds /\
            (heap w (brk w) = Some garbage ->
             filename ∉ denied w -> files w !! filename = Some data -> data <> [] ->
             main filename N t w = Undef OutOfBounds)).
  2:{ split; [|exact Hsmall]. split.
      - intros E. destruct (Z_lt_le_dec N 4) as [Hlt|Hge]; [|exact Hge].
        destruct Hsmall as [Hu _]; [lia|]. rewrite Hu in E. discriminate.
      - intros H4. now apply printCells_ok. }
  intros H3. assert (HN : 1 <= N <= 3) by (destruct HfitsN; lia).
  assert (Hprint : forall tb, length tb = Z.to_nat (N * N) ->
                              printCells tb N = Undef OutOfBounds).
  { intros tb Htb. assert (HN' : N = 1 \/ N = 2 \/ N = 3) by lia.
    destruct HN' as [-> | [-> | ->]].
    - destruct tb as [|a [|]]; try discriminate. reflexivity.
    - destruct tb as [|a [|b [|c [|d [|]]]]]; try discriminate. reflexivity.
    - destruct tb as [|a [|b [|c [|d [|e [|f [|g [|h [|k [|]]]]]]]]]];
        try discriminate. reflexivity. }
  split; [now apply Hprint|].
  intros Hg Hd Hf Hdata.
  unfold main. rewrite (malloc_grid N w garbage HfitsN Hg).
  cbv beta iota zeta. cbn [default from_option id].
  rewrite (read_from_file_opened _ data filename N _ HfitsN);
    [| now rewrite length_fmap, length_seq | exact Hd | exact Hf].
  cbv zeta.
  destruct (decide (Nat.min (Z.to_nat (N * N)) (length data) = 0%nat)) as [Hz|Hz].
  { destruct data; [congruence|]. cbn [length] in Hz. lia. }
  cbn [bind]. rewrite Hprint; [reflexivity|].
  rewrite length_app, length_take, length_drop, length_fmap, length_seq. lia.
Qed.

(** * The whole program *)

Lemma iter_step_length (N : Z) (n : nat) (g : list state) :
  length g = Z.to_nat (N * N) ->
  length (Nat.iter n (step N) g) = Z.to_nat (N * N).
Proof.
  intros Hlen. destruct n as [|n]; [exact Hlen|].
  rewrite Nat.iter_succ. apply step_length.
Qed.

(** X21. A run that goes well: side at least 4, a source that opens and
    holds exactly the N * N cells of a board, allocations that succeed,
    a destination that opens and a device with room.  [main] returns;
    the file named after N holds the t-th iterate of [step] on the
    board, every other file (the source too, when it has another name)
    is as it was, and no warning has been issued. *)
Theorem main_completes (g : list state) (filename : string) (N t : Z) (w : world) :
  fits N -> 4 <= N -> 0 <= t -> length g = Z.to_nat (N * N) ->
  (forall k, heap w k <> None) ->
  filename ∉ denied w -> files w !! filename = Some (enc <$> g) ->
  newfilename N ∉ denied w -> (Z.to_nat (N * N) <= space w)%nat ->
  exists w',
    main filename N t w = Done w' /\
    files w' !! newfilename N = Some (enc <$> Nat.iter (Z.to_nat t) (step N) g) /\
    (forall other, other <> newfilename N -> files w' !! other = files w !! other) /\
    log w' = log w.
Proof.
  intros HN H4 Ht Hlen Hheap Hd Hf Hdn Hroom.
  destruct (heap w (brk w)) as [garbage|] eqn:Hg; [|now apply Hheap in Hg].
  set (w1 := set_brk (Datatypes.S (brk w)) w).
  set (final := enc <$> Nat.iter (Z.to_nat t) (step N) g).
  set (w3 := set_brk (brk w1 + Z.to_nat t) w1).
  assert (Hfinal : length final = Z.to_nat (N * N)).
  { subst final. rewrite length_fmap. now apply iter_step_length. }
  exists (written final N w3). split.
  - unfold main. rewrite (malloc_grid N w garbage HN Hg).
    cbv beta iota zeta. cbn [default from_option id]. fold w1.
    rewrite (read_from_file_full _ (enc <$> g) filename N w1 HN);
      [| now rewrite length_fmap, length_seq | exact Hd | exact Hf
       | rewrite length_fmap; lia].
    cbn [bind]. rewrite <- Hlen, <- (length_fmap enc g), firstn_all.
    rewrite printCells_ok by (rewrite ?length_fmap; assumption). cbn [bind].
    unfold run, for_upto. rewrite for_loop_times.
    rewrite (times_play_step N (Z.to_nat t) g w1 HN Hlen) by exact Hheap.
    cbn [bind]. fold final. fold w3.
    rewrite printCells_ok by assumption. cbn [bind].
    apply write_to_file_full; assumption.
  - unfold written; cbn [files log set_space set_files].
    split; [apply lookup_insert_eq|]. split; [|reflexivity].
    intros other Hne. now rewrite lookup_insert_ne by congruence.
Qed.

(** ** The 2x2 torus *)

(** X16. On a board of side 2 the row above is the row below and the column
    to the left is the column to the right: at (0, 0) the neighbour in
    the row is counted twice, the one in the column twice and the one
    across four times.  The sum is even at every cell, so on a board of
    zeros and ones no dead cell is ever born. *)
Theorem play_2x2_no_birth (a b c d : Z) (w : world) (garbage : nat -> Z) :
  cell_sum [a; b; c; d] 2 0 0 = Done (wrap (2 * b + 2 * c + 4 * d)) /\
  (binary [a; b; c; d] -> heap w (brk w) = Some garbage ->
   exists X' w',
     play [a; b; c; d] 2 w = Done (X', w') /\
     forall k : nat, [a; b; c; d] !! k = Some 0 -> X' !! k = Some 0).
Proof.
  assert (H2 : fits 2) by fits_now.
  split.
  { rewrite (cell_sum_wrap 2 [a; b; c; d] H2 eq_refl) by lia.
    do 2 f_equal. unfold torus_sum, at_.
    change ((0 - 1 + 2) mod 2) with 1. change ((0 + 1) mod 2) with 1.
    change (Z.to_nat (1 * 2 + 1)) with 3%nat.
    change (Z.to_nat (1 * 2 + 0)) with 2%nat.
    change (Z.to_nat (0 * 2 + 1)) with 1%nat.
    cbn [lookup list_lookup default from_option id]. lia. }
  intros HB Hg.
  exists (next_gen [a; b; c; d] 2), (set_brk (Datatypes.S (brk w)) w).
  split; [exact (play_next_gen 2 [a; b; c; d] H2 eq_refl w garbage Hg)|].
  unfold binary in HB.
  apply Forall_cons_1 in HB as [Ha HB]. apply Forall_cons_1 in HB as [Hb HB].
  apply Forall_cons_1 in HB as [Hc HB]. apply Forall_cons_1 in HB as [Hd _].
  cbn [enc] in *.
  destruct Ha as [-> | ->], Hb as [-> | ->], Hc as [-> | ->], Hd as [-> | ->];
    intros [|[|[|[|k]]]] Hk; try discriminate; reflexivity.
Qed.

(** ** Moving the board around the torus *)

Lemma mod_shift_pred (N i a : Z) :
  ((i - 1 + N) mod N + a) mod N = ((i + a) mod N - 1 + N) mod N.
Proof.
  rewrite Zplus_mod_idemp_l.
  replace ((i + a) mod N - 1 + N) with ((i + a) mod N + (N - 1)) by lia.
  rewrite Zplus_mod_idemp_l. f_equal. lia.
Qed.

Lemma mod_shift_succ (N i a : Z) :
  ((i + 1) mod N + a) mod N = ((i + a) mod N + 1) mod N.
Proof. rewrite !Zplus_mod_idemp_l. f_equal. lia. Qed.

Lemma shift_length (N a b : Z) (X : list Z) :
  length (shift N a b X) = Z.to_nat (N * N).
Proof. unfold shift. now rewrite length_fmap, length_seq. Qed.

Lemma at_shift (N a b : Z) (X : list Z) (r c : Z) :
  fits N -> 0 <= r < N -> 0 <= c < N ->
  at_ (shift N a b X) N r c = at_ X N ((r + a) mod N) ((c + b) mod N).
Proof.
  intros HN Hr Hc. pose proof (index_range N r c HN Hr Hc) as Hk.
  unfold at_ at 1. unfold shift. rewrite (Z.mul_comm r N).
  rewrite list_lookup_fmap, lookup_seq_lt by lia.
  cbn. rewrite Z2Nat.id by lia. now rewrite flat_div, flat_mod by assumption.
Qed.

Lemma torus_sum_shift (N a b : Z) (X : list Z) (i j : Z) :
  fits N -> 0 <= i < N -> 0 <= j < N ->
  torus_sum (shift N a b X) N i j
  = torus_sum X N ((i + a) mod N) ((j + b) mod N).
Proof.
  intros HN Hi Hj. pose proof (fits_side N HN) as HS. unfold torus_sum.
  assert (Hu : 0 <= (i - 1 + N) mod N < N) by (apply Z.mod_pos_bound; lia).
  assert (Hd : 0 <= (i + 1) mod N < N) by (apply Z.mod_pos_bound; lia).
  assert (Hl : 0 <= (j - 1 + N) mod N < N) by (apply Z.mod_pos_bound; lia).
  assert (Hr : 0 <= (j + 1) mod N < N) by (apply Z.mod_pos_bound; lia).
  rewrite !at_shift by assumption.
  now rewrite !mod_shift_pred, !mod_shift_succ.
Qed.

Lemma next_gen_shift (N a b : Z) (X : list Z) :
  fits N -> next_gen (shift N a b X) N = shift N a b (next_gen X N).
Proof.
  intros HN. pose proof (fits_side N HN) as HS.
  unfold next_gen at 1. unfold shift at 2.
  apply list_fmap_ext. intros k k' Hk.
  apply lookup_seq in Hk as [-> Hk]. cbn [Nat.add].
  assert (Hi : 0 <= Z.of_nat k / N < N).
  { split; [apply Z.div_pos; lia | apply Z.div_lt_upper_bound; lia]. }
  assert (Hj : 0 <= Z.of_nat k mod N < N) by (apply Z.mod_pos_bound; lia).
  assert (Hi' : 0 <= (Z.of_nat k / N + a) mod N < N)
    by (apply Z.mod_pos_bound; lia).
  assert (Hj' : 0 <= (Z.of_nat k mod N + b) mod N < N)
    by (apply Z.mod_pos_bound; lia).
  unfold nxt. cbv zeta.
  rewrite at_shift, torus_sum_shift by assumption.
  symmetry. unfold at_ at 1. rewrite (Z.mul_comm _ N).
  now rewrite next_gen_lookup by assumption.
Qed.

(** X15. [play] commutes with moving the board around the torus, by any
    number of rows and columns: no row and no column is treated apart,
    the edges included. *)
Theorem play_commutes_with_shift (X : list Z) (N a b : Z) (w : world)
        (garbage : nat -> Z) :
  fits N -> length X = Z.to_nat (N * N) ->
  heap w (brk w) = Some garbage ->
  exists X' w',
    play X N w = Done (X', w') /\
    play (shift N a b X) N w = Done (shift N a b X', w').
Proof.
  intros HN HX Hg.
  exists (next_gen X N), (set_brk (Datatypes.S (brk w)) w).
  split; [exact (play_next_gen N X HN HX w garbage Hg)|].
  rewrite (play_next_gen N (shift N a b X) HN (shift_length N a b X) w garbage Hg).
  now rewrite next_gen_shift.
Qed.

(** ** The name of the destination *)

Lemma append_length (s t : string) :
  String.length (s +:+ t) = (String.length s + String.length t)%nat.
Proof.
  induction s as [|a s IH]; [reflexivity|].
  change (String a s +:+ t) with (String a (s +:+ t)).
  cbn [String.length Nat.add]. now rewrite IH.
Qed.

Lemma append_inj_length (s1 s2 t1 t2 : string) :
  String.length s1 = String.length s2 -> s1 +:+ t1 = s2 +:+ t2 ->
  s1 = s2 /\ t1 = t2.
Proof.
  revert s2. induction s1 as [|a s1 IH]; intros [|b s2] Hlen E;
    try discriminate; [now split|].
  change (String a s1 +:+ t1) with (String a (s1 +:+ t1)) in E.
  change (String b s2 +:+ t2) with (String b (s2 +:+ t2)) in E.
  cbn [String.length] in Hlen.
  injection E as -> E. destruct (IH s2) as [-> ->]; [lia | exact E | now split].
Qed.

(** X7. Boards of different sides are written under different names: a run
    on one side never writes over the result of a run on another. *)
Theorem newfilename_by_side (N M : Z) :
  N <> M -> newfilename N <> newfilename M.
Proof.
  intros Hne E. apply Hne. apply (inj pretty). unfold newfilename in E.
  apply append_inj_length in E as [_ E]; [|reflexivity].
  pose proof (f_equal String.length E) as Hlen.
  rewrite !append_length in Hlen. cbn [String.length] in Hlen.
  apply append_inj_length in E as [E _]; [exact E | lia].
Qed.

(** * The further theorems at sample inputs *)

Lemma write_to_file_persists_witness :
  exists w',
    write_to_file blinker "board.bin" 4 lab = Done w' /\
    files w' !! newfilename 4 = Some blinker /\
    (forall other, other <> newfilename 4 -> files w' !! other = files lab !! other) /\
    log w' = log lab /\
    space w' = (space lab - Z.to_nat (4 * 4))%nat.
Proof.
  apply (write_to_file_persists blinker "board.bin" 4 lab);
    [fits_now | reflexivity | apply not_elem_of_empty | cbn; lia].
Defined.

Lemma write_then_read_witness :
  exists w',
    write_to_file blinker "board.bin" 4 lab = Done w' /\
    read_from_file (stale <$> seq 0 16) (newfilename 4) 4 w' = Done (blinker, w').
Proof.
  apply (write_then_read blinker (stale <$> seq 0 16) "board.bin" 4 lab);
    [fits_now | reflexivity | reflexivity | apply not_elem_of_empty | cbn; lia].
Defined.

Lemma write_to_file_no_room_witness :
  (exists w',
     write_to_file (replicate 1024 0) "board.bin" 32 full_disk
     = Fatal "Couldn't write to file" w' /\
     files w' !! newfilename 32 = Some []) /\
  (exists w',
     write_to_file blinker "board.bin" 4 full_disk = Done w' /\
     files w' !! newfilename 4 = Some [] /\
     log w' = log full_disk).
Proof.
  split.
  - destruct (write_to_file_no_room (replicate 1024 0) "board.bin" 32 full_disk)
      as [H _];
      [fits_now | reflexivity | apply not_elem_of_empty | reflexivity |].
    apply H. cbn. lia.
  - destruct (write_to_file_no_room blinker "board.bin" 4 full_disk)
      as [_ H];
      [fits_now | reflexivity | apply not_elem_of_empty | reflexivity |].
    apply H. cbn. lia.
Defined.

Lemma write_to_file_short_witness :
  (exists w',
     write_to_file (replicate 1024 0) "board.bin" 32 tight = Done w' /\
     files w' !! newfilename 32 = Some (take (space tight) (replicate 1024 0)) /\
     log w' = log tight ++ ["Expected to write different number of elements"] /\
     space w' = 0%nat) /\
  (exists w',
     write_to_file blinker "board.bin" 4 tight = Done w' /\
     files w' !! newfilename 4 = Some (take (space tight) blinker) /\
     log w' = log tight /\
     space w' = 0%nat).
Proof.
  split.
  - destruct (write_to_file_short (replicate 1024 0) "board.bin" 32 tight)
      as [H _];
      [fits_now | reflexivity | apply not_elem_of_empty | cbn; lia |].
    apply H. vm_compute. lia.
  - destruct (write_to_file_short blinker "board.bin" 4 tight)
      as [_ H];
      [fits_now | reflexivity | apply not_elem_of_empty | cbn; lia |].
    apply H. vm_compute. lia.
Defined.

Lemma write_to_file_elsewhere_witness :
  match write_to_file blinker "board.bin" 4 lab with
  | Done w' | Fatal _ w' => files w' !! "board.bin" = files lab !! "board.bin"
  | Undef _ => True
  end.
Proof.
  apply (write_to_file_elsewhere blinker "board.bin" "board.bin" 4 lab).
  vm_compute. discriminate.
Defined.

Lemma write_to_file_unopenable_witness :
  write_to_file blinker "board.bin" 4 locked
  = Fatal "Couldn't open file to write" locked.
Proof.
  apply write_to_file_unopenable.
  change (newfilename 4 ∈ ({[ "table4x4_new.bin" ]} : gset string)).
  apply elem_of_singleton_2. vm_compute. reflexivity.
Defined.

Lemma newfilename_by_side_witness : newfilename 4 <> newfilename 5.
Proof. apply newfilename_by_side. lia. Defined.

Lemma read_from_file_ignores_rest_witness :
  read_from_file (stale <$> seq 0 9) "board.bin" 3 lab
  = Done (take (Z.to_nat (3 * 3)) blinker, lab).
Proof.
  apply read_from_file_ignores_rest;
    [fits_now | reflexivity | apply not_elem_of_empty
     | vm_compute; reflexivity | cbn; lia].
Defined.

Lemma read_from_file_nothing_witness :
  read_from_file (stale <$> seq 0 16) "empty.bin" 4 lab
  = Fatal "Couldn't read from file" lab /\
  main "empty.bin" 4 1 lab
  = Fatal "Couldn't read from file" (set_brk (Datatypes.S (brk lab)) lab).
Proof.
  apply (read_from_file_nothing (stale <$> seq 0 16) [] "empty.bin" 4 1 lab);
    [apply not_elem_of_empty | vm_compute; reflexivity | now left].
Defined.

Lemma play_frame_witness :
  length (next_gen blinker 4) = length blinker /\
  files (set_brk 1 lab) = files lab /\ denied (set_brk 1 lab) = denied lab /\
  space (set_brk 1 lab) = space lab /\
  brk (set_brk 1 lab) = Datatypes.S (brk lab).
Proof.
  apply (play_frame blinker (next_gen blinker 4) 4 lab (set_brk 1 lab)).
  vm_compute. reflexivity.
Defined.

Lemma play_without_cells_witness :
  exists w',
    play blinker (-2) lab = Done (blinker, w') /\
    w' = warn "Testing issue - not all cells were taken into account"
              (set_brk (Datatypes.S (brk lab)) lab) /\
    log w' = log lab ++ ["Testing issue - not all cells were taken into account"] /\
    files w' = files lab /\ brk w' = Datatypes.S (brk lab).
Proof.
  destruct (play_without_cells blinker (-2) lab stale eq_refl) as [_ H].
  apply H. lia.
Defined.

Lemma play_keeps_other_values_witness :
  exists X' w',
    play [1; 0; 1; 10] 2 lab = Done (X', w') /\ rd X' (1 * 2 + 1) = Done 10.
Proof.
  apply (play_keeps_other_values [1; 0; 1; 10] 2 1 1 10 lab stale);
    [fits_now | reflexivity | reflexivity | lia | lia | reflexivity | lia | lia].
Defined.

Lemma play_tally_exact_witness :
  exists s X' w',
    play_fill blinker 4 (stale <$> seq 0 (Z.to_nat (4 * 4))) = Done s /\
    play blinker 4 lab = Done (X', w') /\
    population X' = population blinker + births s - deaths s /\
    0 <= births s /\ 0 <= deaths s /\ 0 <= ok s /\
    births s + deaths s + ok s = 4 * 4.
Proof.
  apply (play_tally_exact blinker 4 lab stale);
    [fits_now | reflexivity | reflexivity].
Defined.

Lemma play_commutes_with_shift_witness :
  exists X' w',
    play blinker 4 lab = Done (X', w') /\
    play (shift 4 1 2 blinker) 4 lab = Done (shift 4 1 2 X', w').
Proof.
  apply (play_commutes_with_shift blinker 4 1 2 lab stale);
    [fits_now | reflexivity | reflexivity].
Defined.

Lemma play_2x2_no_birth_witness :
  exists X' w',
    play [1; 0; 0; 1] 2 lab = Done (X', w') /\
    forall k : nat, [1; 0; 0; 1] !! k = Some 0 -> X' !! k = Some 0.
Proof.
  destruct (play_2x2_no_birth 1 0 0 1 lab stale) as [_ H].
  apply H; [binary_now | reflexivity].
Defined.

Lemma run_dead_board_witness :
  run (replicate (Z.to_nat (4 * 4)) 0) 4 3 lab
  = Done (replicate (Z.to_nat (4 * 4)) 0, set_brk (brk lab + Z.to_nat 3) lab).
Proof.
  apply run_dead_board; [fits_now | lia | intros k; discriminate].
Defined.

Lemma run_add_witness :
  run blinker 4 (1 + 2) lab = ('(X1, w1) <- run blinker 4 1 lab ; run X1 4 2 w1).
Proof. apply run_add; lia. Defined.

Lemma run_dies_at_witness :
  run (enc <$> blinker_states) 4 5 starved
  = Fatal "Memory allocation failed" (set_brk (brk starved + 2 + 1) starved).
Proof.
  apply run_dies_at.
  - fits_now.
  - reflexivity.
  - cbn. lia.
  - intros j Hj. destruct j as [|[|j]]; [discriminate | discriminate | lia].
  - reflexivity.
Defined.

Lemma printCells_small_board_witness :
  (printCells far_corner 3 = Done tt <-> 4 <= 3) /\
  printCells far_corner 3 = Undef OutOfBounds /\
  main "board.bin" 3 1 lab = Undef OutOfBounds.
Proof.
  destruct (printCells_small_board far_corner blinker "board.bin" 3 1 lab stale)
    as [Hiff Hsmall]; [fits_now | reflexivity|].
  destruct Hsmall as [Hp Hm]; [lia|].
  split; [exact Hiff|]. split; [exact Hp|].
  apply Hm; [reflexivity | apply not_elem_of_empty | vm_compute; reflexivity
            | discriminate].
Defined.

Lemma main_completes_witness :
  exists w',
    main "board.bin" 4 3 lab = Done w' /\
    files w' !! newfilename 4
    = Some (enc <$> Nat.iter (Z.to_nat 3) (step 4) blinker_states) /\
    (forall other, other <> newfilename 4 -> files w' !! other = files lab !! other) /\
    log w' = log lab.
Proof.
  apply (main_completes blinker_states "board.bin" 4 3 lab).
  - fits_now.
  - lia.
  - lia.
  - reflexivity.
  - intros k; discriminate.
  - apply not_elem_of_empty.
  - vm_compute. reflexivity.
  - apply not_elem_of_empty.
  - cbn. lia.
Defined.

(** * A board that is too short *)

(** X22. The first cell [play] visits is (0, 0), and the first neighbour
    it reads there is the last cell of the board, (N-1, N-1): handed a
    buffer with fewer than N * N cells, [play] reads outside of it at
    once, before anything is written. *)
Theorem play_short_board (X : list Z) (N : Z) (w : world) (garbage : nat -> Z) :
  fits N -> (length X < Z.to_nat (N * N))%nat ->
  heap w (brk w) = Some garbage ->
  cell_sum X N 0 0 = Undef OutOfBounds /\
  play X N w = Undef OutOfBounds.
Proof.
  intros HN HX Hg. pose proof (fits_side N HN) as HS.
  assert (Hsum : cell_sum X N 0 0 = Undef OutOfBounds).
  { unfold cell_sum. cbv zeta. rewrite !before_int by (assumption || lia).
    replace ((0 - 1 + N) mod N) with (N - 1)
      by (replace (0 - 1 + N) with (N - 1) by lia; symmetry; apply Z.mod_small; lia).
    rewrite index_int by (assumption || lia).
    unfold rd at 1.
    destruct (Z.ltb_spec (N * (N - 1) + (N - 1)) 0) as [Hneg|_]; [nia|].
    destruct (X !! Z.to_nat (N * (N - 1) + (N - 1))) as [v|] eqn:E.
    - apply lookup_lt_Some in E. nia.
    - reflexivity. }
  split; [exact Hsum|].
  unfold play. rewrite (malloc_grid N w garbage HN Hg).
  unfold play_fill, for_upto.
  destruct (Z.to_nat N) as [|n] eqn:En; [lia|].
  cbn [for_loop]. unfold play_cell at 1. rewrite Hsum. reflexivity.
Qed.

Lemma play_short_board_witness :
  cell_sum [0; 1; 0] 2 0 0 = Undef OutOfBounds /\
  play [0; 1; 0] 2 lab = Undef OutOfBounds.
Proof.
  apply (play_short_board [0; 1; 0] 2 lab stale);
    [fits_now | cbn; lia | reflexivity].
Defined.
